(** * Job board: optimistic state synchronisation

    A shallow embedding of the job data-access layer ([jobService]) and of
    the store that consumes it ([JobProvider]), with the properties of the
    derived views, the comment reconciliation and the cache fallback.

    Conventions of the embedding:
    - an optional field of a TypeScript object ([comments?], [replies?], the
      fields of a [Partial<JobType>]) is an [option];
    - [Date.now()] is an integer number of milliseconds, a [Z], and is an
      input of the function that reads it;
    - one HTTP exchange is an input of the gateway function that issues it
      (type [Response]); whether the exchange takes place is recorded in the
      trace of events the function returns;
    - [toast], the network and [localStorage.setItem] are effects: every
      function returns the list of [Event]s it performed, in order;
    - a React state setter called with an updater function is the
      application of that function to the current store. *)

From Stdlib Require Import List String Ascii Bool ZArith Lia.
From Stdlib Require Import DecimalString DecimalZ.
Import ListNotations.

Local Open Scope string_scope.
Local Open Scope list_scope.

(** ** JavaScript values *)

Module Js.

(** [!s] is false exactly for a defined, non-empty string. *)
Definition truthy (o : option string) : bool :=
  match o with
  | Some s => negb (String.eqb s "")
  | None => false
  end.

(** [a || b] on optional strings. *)
Definition or_else (a b : option string) : option string :=
  if truthy a then a else b.

(** [a || d] with a string literal [d] on the right. *)
Definition or_default (a : option string) (d : string) : string :=
  match a with
  | Some s => if String.eqb s "" then d else s
  | None => d
  end.

(** [xs || []] on an optional array (an array is always truthy). *)
Definition or_nil {A : Type} (xs : option (list A)) : list A :=
  match xs with
  | Some l => l
  | None => []
  end.

(** String conversion of an integer inside a template literal. *)
Definition of_int (z : Z) : string := NilEmpty.string_of_int (Z.to_int z).

(** [s.startsWith(p)]. *)
Definition startsWith (p s : string) : bool := String.prefix p s.

(** [xs.find(p)]. *)
Definition find {A : Type} (p : A -> bool) (xs : list A) : option A :=
  List.find p xs.

(** [xs.slice(0, n)]. *)
Definition slice0 {A : Type} (n : nat) (xs : list A) : list A := firstn n xs.

(** What a [throw] carries: a plain [Error], or the error axios rejects
    with, whose optional fields are [error.response.data.message] and
    [error.response.data.details]. *)
Inductive error : Type :=
| Error (message : string)
| AxiosError (message : string) (data_message data_details : option string).

Definition isAxiosError (e : error) : bool :=
  match e with
  | AxiosError _ _ _ => true
  | Error _ => false
  end.

Definition message (e : error) : string :=
  match e with
  | Error m => m
  | AxiosError m _ _ => m
  end.

End Js.

(** The settled state of a promise. *)
Inductive Outcome (A : Type) : Type :=
| Resolved (a : A)
| Rejected (e : Js.error).
Arguments Resolved {A} a.
Arguments Rejected {A} e.

(** ** Entity model *)

Record ReplyType : Type := mkReply {
  reply_id : string;
  reply_userId : string;
  reply_commentId : string;
  reply_text : string;
  reply_content : option string;
  reply_timestamp : Z;
  reply_userName : string;
  reply_userPhoto : string
}.

Record CommentType : Type := mkComment {
  comment_id : string;
  comment_userId : string;
  comment_jobId : string;
  comment_text : string;
  comment_content : option string;
  comment_timestamp : Z;
  comment_userName : string;
  comment_userPhoto : string;
  comment_replies : option (list ReplyType)
}.

Inductive JobStatus : Type := Open | InProgress | Completed.

Record JobType : Type := mkJob {
  job_id : string;
  job_title : string;
  job_description : string;
  job_category : string;
  job_budget : Z;
  job_status : JobStatus;
  job_userId : string;
  job_timestamp : Z;
  job_comments : option (list CommentType)
}.

(** [Partial<JobType>] as the forms build it. *)
Record JobData : Type := mkJobData {
  data_title : option string;
  data_description : option string;
  data_category : option string;
  data_budget : option Z;
  data_status : option JobStatus
}.

Record UserType : Type := mkUser {
  user_id : string;
  user_name : string;
  user_photoURL : option string
}.

(** [{ ...job, comments: cs }] *)
Definition with_comments (job : JobType) (cs : option (list CommentType)) : JobType :=
  mkJob (job_id job) (job_title job) (job_description job) (job_category job)
        (job_budget job) (job_status job) (job_userId job) (job_timestamp job) cs.

(** [{ ...comment, replies: rs }] *)
Definition with_replies (c : CommentType) (rs : option (list ReplyType)) : CommentType :=
  mkComment (comment_id c) (comment_userId c) (comment_jobId c) (comment_text c)
            (comment_content c) (comment_timestamp c) (comment_userName c)
            (comment_userPhoto c) rs.

(** ** Effects *)

Inductive ToastVariant : Type := Default | Destructive.

Record Toast : Type := mkToast {
  toast_variant : ToastVariant;
  toast_title : string;
  toast_description : string
}.

Inductive HttpMethod : Type := GET | POST | PUT | DELETE.

Inductive Event : Type :=
| EToast (t : Toast)
| ERequest (m : HttpMethod) (path : string)
| ESetCachedJobs (value : list JobType).

Definition toast (v : ToastVariant) (title description : string) : Event :=
  EToast (mkToast v title description).

Definition is_request (e : Event) : bool :=
  match e with ERequest _ _ => true | _ => false end.

Definition is_toast (e : Event) : bool :=
  match e with EToast _ => true | _ => false end.

Definition is_failure_toast (e : Event) : bool :=
  match e with
  | EToast t => match toast_variant t with Destructive => true | Default => false end
  | _ => false
  end.

Definition is_success_toast (e : Event) : bool :=
  match e with
  | EToast t => match toast_variant t with Default => true | Destructive => false end
  | _ => false
  end.

Definition count (p : Event -> bool) (tr : list Event) : nat :=
  List.length (filter p tr).

(** What one HTTP exchange gives back to the gateway: axios rejects
    ([Threw]), or the body carries [success] falsy and possibly a
    [message] ([Refused]), or [success] truthy and the payload
    ([Success]). *)
Inductive Response (A : Type) : Type :=
| Threw (e : Js.error)
| Refused (message : option string)
| Success (payload : A).
Arguments Threw {A} e.
Arguments Refused {A} message.
Arguments Success {A} payload.

Definition transport_failure {A : Type} (r : Response A) : bool :=
  match r with
  | Success _ => false
  | _ => true
  end.

(** ** Cache fallback store

    [localStorage] with the two slots the code uses.  The slot
    ['cachedJobs'] is written only by [jobService], with [JSON.stringify]
    of a job list, so its content is kept as the job list [JSON.parse]
    gives back.  [quotaExceeded] tells whether [setItem] throws. *)

Record Storage : Type := mkStorage {
  token : option string;
  cachedJobs : option (list JobType);
  quotaExceeded : bool
}.

(** [localStorage.setItem('cachedJobs', JSON.stringify(v))]: [None] when it
    throws. *)
Definition setCachedJobs (v : list JobType) (st : Storage) : option Storage :=
  if quotaExceeded st then None
  else Some (mkStorage (token st) (Some v) (quotaExceeded st)).

(** [try { localStorage.setItem('cachedJobs', ...) } catch (e) { log }] *)
Definition trySetCachedJobs (v : list JobType) (st : Storage) : Storage :=
  match setCachedJobs v st with
  | Some st' => st'
  | None => st
  end.

(** What a gateway call leaves behind: how its promise settled, the storage
    afterwards and the events it performed. *)
Record Eff (A : Type) : Type := mkEff {
  outcome : Outcome A;
  storage : Storage;
  trace : list Event
}.
Arguments mkEff {A} outcome storage trace.
Arguments outcome {A} e.
Arguments storage {A} e.
Arguments trace {A} e.

(** The claims a token carries, as the fallback of [addComment] and
    [addReply] reads them. *)
Record UserInfo : Type := mkUserInfo {
  info_userId : option string;
  info_id : option string;
  info_name : option string;
  info_photoURL : option string
}.

(** ** Remote gateway: [jobService] *)

Module jobService.

Section Gateway.

(** [JSON.parse(atob(token.split('.')[1]))], [None] when it throws. *)
Variable decodeToken : string -> option UserInfo.

Definition ensure_comments (job : JobType) : JobType :=
  with_comments job (Some (Js.or_nil (job_comments job))).

Definition cached_or_empty (st : Storage) : list JobType :=
  match cachedJobs st with
  | Some jobs => jobs
  | None => []
  end.

Definition describe (prefix : string) (e : Js.error) : string :=
  (prefix ++ (if Js.isAxiosError e then Js.message e else "Error desconocido"))%string.

Definition getAllJobs (st : Storage) (resp : Response (list JobType))
  : Eff (list JobType) :=
  let request := ERequest GET "/jobs" in
  match resp with
  | Success jobs =>
      let jobsWithComments := map ensure_comments jobs in
      mkEff (Resolved jobsWithComments)
            (trySetCachedJobs jobsWithComments st)
            [request; ESetCachedJobs jobsWithComments]
  | Refused _ =>
      mkEff (Resolved (cached_or_empty st)) st [request]
  | Threw e =>
      mkEff (Resolved (cached_or_empty st)) st
            [request;
             toast Destructive "Error" (describe "Error al obtener las propuestas: " e)]
  end.

Definition getJobsByUser (st : Storage) (userId : string)
           (resp : Response (list JobType)) : Eff (list JobType) :=
  let all := getAllJobs st resp in
  match outcome all with
  | Resolved allJobs =>
      mkEff (Resolved (filter (fun job => String.eqb (job_userId job) userId) allJobs))
            (storage all) (trace all)
  | Rejected e =>
      mkEff (Rejected e) (storage all)
            (trace all ++
             [toast Destructive "Error"
                    (describe "Error al obtener las propuestas del usuario: " e)])
  end.

Definition incomplete : string := "Datos incompletos para crear la propuesta".

(** The guard of [createJob]:
    [!title || !description || !category || budget === undefined]. *)
Definition missing_fields (jobData : JobData) : bool :=
  negb (Js.truthy (data_title jobData))
  || negb (Js.truthy (data_description jobData))
  || negb (Js.truthy (data_category jobData))
  || match data_budget jobData with None => true | Some _ => false end.

(** The message the [catch] of [createJob] shows. *)
Definition createJob_errorMessage (e : Js.error) : string :=
  let base := "Error al crear la propuesta" in
  match e with
  | Js.AxiosError m dm dd =>
      if Js.truthy dd then (base ++ ": " ++ Js.or_default dm (Js.or_default dd ""))%string
      else if Js.truthy dm then (base ++ ": " ++ Js.or_default dm "")%string
      else (base ++ ": " ++ m)%string
  | Js.Error _ => base
  end.

Definition createJob (st : Storage) (jobData : JobData) (resp : Response JobType)
  : Eff JobType :=
  let caught (before : list Event) (e : Js.error) :=
    mkEff (Rejected e) st
          (before ++ [toast Destructive "Error" (createJob_errorMessage e)]) in
  if missing_fields jobData then
    caught [toast Destructive "Error" incomplete] (Js.Error incomplete)
  else
    let request := ERequest POST "/jobs" in
    match resp with
    | Success job =>
        mkEff (Resolved job) st
              [request; toast Default "Éxito" "Propuesta creada correctamente"]
    | Refused msg =>
        let errorMsg := Js.or_default msg "Error al crear la propuesta" in
        caught [request; toast Destructive "Error" errorMsg] (Js.Error errorMsg)
    | Threw e => caught [request] e
    end.

Definition updateJob (st : Storage) (id : string) (jobData : JobData)
           (resp : Response JobType) : Eff (option JobType) :=
  let request := ERequest PUT ("/jobs/" ++ id) in
  match resp with
  | Success job =>
      mkEff (Resolved (Some job)) st
            [request; toast Default "Éxito" "Propuesta actualizada correctamente"]
  | Refused msg =>
      mkEff (Resolved None) st
            [request;
             toast Destructive "Error"
                   (Js.or_default msg "Error al actualizar la propuesta")]
  | Threw e =>
      mkEff (Rejected e) st
            [request;
             toast Destructive "Error" (describe "Error al actualizar la propuesta: " e)]
  end.

Definition deleteJob (st : Storage) (id : string) (resp : Response unit)
  : Eff bool :=
  let request := ERequest DELETE ("/jobs/" ++ id) in
  match resp with
  | Success _ =>
      mkEff (Resolved true) st
            [request; toast Default "Éxito" "Propuesta eliminada correctamente"]
  | Refused msg =>
      mkEff (Resolved false) st
            [request;
             toast Destructive "Error"
                   (Js.or_default msg "Error al eliminar la propuesta")]
  | Threw e =>
      mkEff (Rejected e) st
            [request;
             toast Destructive "Error" (describe "Error al eliminar la propuesta: " e)]
  end.

(** The [userInfo] of the fallback: decoded only from a truthy token. *)
Definition userInfo_of (st : Storage) : option UserInfo :=
  if Js.truthy (token st) then
    match token st with
    | Some t => decodeToken t
    | None => None
    end
  else None.

(** [userInfo?.f] *)
Definition field (f : UserInfo -> option string) (u : option UserInfo) : option string :=
  match u with
  | Some i => f i
  | None => None
  end.

(** The comment [addComment] fabricates in its [catch]. *)
Definition local_comment (st : Storage) (jobId text id : string) (now : Z)
  : CommentType :=
  let userInfo := userInfo_of st in
  mkComment id
            (Js.or_default (Js.or_else (field info_userId userInfo) (field info_id userInfo))
                           "unknown")
            jobId text (Some text) now
            (Js.or_default (field info_name userInfo) "Usuario")
            (Js.or_default (field info_photoURL userInfo) "")
            (Some []).

(** The cached jobs with [newComment] appended to the job [jobId]. *)
Definition cache_merge (jobId : string) (newComment : CommentType)
           (jobs : list JobType) : list JobType :=
  map (fun job =>
         if String.eqb (job_id job) jobId then
           with_comments job (Some (Js.or_nil (job_comments job) ++ [newComment]))
         else job)
      jobs.

(** [uuid] is what [uuidv4()] does when the fallback calls it, [now] what
    [Date.now()] returns there. *)
Definition addComment (st : Storage) (jobId text : string)
           (resp : Response CommentType) (uuid : Outcome string) (now : Z)
  : Eff CommentType :=
  let request := ERequest POST ("/jobs/" ++ jobId ++ "/comments") in
  match resp with
  | Success comment => mkEff (Resolved comment) st [request]
  | Refused _ | Threw _ =>
      match uuid with
      | Rejected e => mkEff (Rejected e) st [request]
      | Resolved id =>
          let newComment := local_comment st jobId text id now in
          match cachedJobs st with
          | Some jobs =>
              let updatedJobs := cache_merge jobId newComment jobs in
              mkEff (Resolved newComment) (trySetCachedJobs updatedJobs st)
                    [request; ESetCachedJobs updatedJobs]
          | None => mkEff (Resolved newComment) st [request]
          end
      end
  end.

Definition local_reply (st : Storage) (commentId text id : string) (now : Z)
  : ReplyType :=
  let userInfo := userInfo_of st in
  mkReply id
          (Js.or_default (Js.or_else (field info_userId userInfo) (field info_id userInfo))
                         "unknown")
          commentId text (Some text) now
          (Js.or_default (field info_name userInfo) "Usuario")
          (Js.or_default (field info_photoURL userInfo) "").

Definition addReply (st : Storage) (commentId text : string)
           (resp : Response ReplyType) (uuid : Outcome string) (now : Z)
  : Eff ReplyType :=
  let request := ERequest POST ("/comments/" ++ commentId ++ "/replies") in
  match resp with
  | Success reply => mkEff (Resolved reply) st [request]
  | Refused _ | Threw _ =>
      match uuid with
      | Rejected e => mkEff (Rejected e) st [request]
      | Resolved id => mkEff (Resolved (local_reply st commentId text id now)) st [request]
      end
  end.

Definition deleteComment (st : Storage) (commentId : string) (resp : Response unit)
  : Eff bool :=
  let request := ERequest DELETE ("/comments/" ++ commentId) in
  match resp with
  | Success _ => mkEff (Resolved true) st [request]
  | Refused _ => mkEff (Resolved false) st [request]
  | Threw e => mkEff (Rejected e) st [request]
  end.

Definition getJobById (st : Storage) (id : string) (resp : Response JobType)
  : Eff (option JobType) :=
  let request := ERequest GET ("/jobs/" ++ id) in
  match resp with
  | Success job => mkEff (Resolved (Some job)) st [request]
  | Refused _ => mkEff (Resolved None) st [request]
  | Threw e =>
      mkEff (Rejected e) st
            [request;
             toast Destructive "Error" (describe "Error al obtener la propuesta: " e)]
  end.

End Gateway.

End jobService.

(** ** The store: [JobProvider] *)

Record Store : Type := mkStore {
  jobs : list JobType;
  userJobs : list JobType;
  filteredJobs : list JobType;
  popularJobs : list JobType;
  savedJobs : list JobType;
  loading : bool
}.

(** The state after [useState] initialises every list. *)
Definition initialStore : Store := mkStore [] [] [] [] [] false.

Definition setJobs (f : list JobType -> list JobType) (s : Store) : Store :=
  mkStore (f (jobs s)) (userJobs s) (filteredJobs s) (popularJobs s) (savedJobs s)
          (loading s).

Definition setUserJobs (f : list JobType -> list JobType) (s : Store) : Store :=
  mkStore (jobs s) (f (userJobs s)) (filteredJobs s) (popularJobs s) (savedJobs s)
          (loading s).

Definition setFilteredJobs (f : list JobType -> list JobType) (s : Store) : Store :=
  mkStore (jobs s) (userJobs s) (f (filteredJobs s)) (popularJobs s) (savedJobs s)
          (loading s).

Definition setPopularJobs (f : list JobType -> list JobType) (s : Store) : Store :=
  mkStore (jobs s) (userJobs s) (filteredJobs s) (f (popularJobs s)) (savedJobs s)
          (loading s).

Definition setSavedJobs (f : list JobType -> list JobType) (s : Store) : Store :=
  mkStore (jobs s) (userJobs s) (filteredJobs s) (popularJobs s) (f (savedJobs s))
          (loading s).

Definition setLoading (b : bool) (s : Store) : Store :=
  mkStore (jobs s) (userJobs s) (filteredJobs s) (popularJobs s) (savedJobs s) b.

(** Everything an operation of the provider can read or change. *)
Record World : Type := mkWorld {
  store : Store;
  local : Storage;
  currentUser : option UserType
}.

Definition on_store (f : Store -> Store) (w : World) : World :=
  mkWorld (f (store w)) (local w) (currentUser w).

Definition with_local (st : Storage) (w : World) : World :=
  mkWorld (store w) st (currentUser w).

(** An operation of the provider that ran to its end: the value its promise
    resolved with, the world it left and the events it performed. *)
Record Run (A : Type) : Type := mkRun {
  returned : A;
  world : World;
  events : list Event
}.
Arguments mkRun {A} returned world events.
Arguments returned {A} r.
Arguments world {A} r.
Arguments events {A} r.

Module JobProvider.

Section Provider.

Variable decodeToken : string -> option UserInfo.

(** The [catch] of [refreshJobs]. *)
Definition refresh_failed (s : Store) : Store :=
  setPopularJobs (fun _ => []) (setFilteredJobs (fun _ => []) (setJobs (fun _ => []) s)).

Definition refreshJobs (w : World) (r1 r2 : Response (list JobType)) : Run unit :=
  let failed := toast Destructive "Error" "Error al cargar los trabajos." in
  let w0 := on_store (setLoading true) w in
  let g1 := jobService.getAllJobs (local w0) r1 in
  match outcome g1 with
  | Resolved allJobs =>
      let w1 := with_local (storage g1)
                  (on_store (fun s => setFilteredJobs (fun _ => allJobs)
                                        (setJobs (fun _ => allJobs) s)) w0) in
      let popular := setPopularJobs (fun _ => Js.slice0 3 allJobs) in
      match currentUser w with
      | Some user =>
          let g2 := jobService.getJobsByUser (local w1) (user_id user) r2 in
          match outcome g2 with
          | Resolved userJobsData =>
              let w2 := with_local (storage g2)
                          (on_store (fun s => setSavedJobs (fun _ => [])
                                                (setUserJobs (fun _ => userJobsData) s))
                                    w1) in
              mkRun tt (on_store (setLoading false) (on_store popular w2))
                    (trace g1 ++ trace g2)
          | Rejected _ =>
              mkRun tt
                    (on_store (setLoading false)
                              (on_store refresh_failed (with_local (storage g2) w1)))
                    (trace g1 ++ trace g2 ++ [failed])
          end
      | None =>
          mkRun tt (on_store (setLoading false) (on_store popular w1)) (trace g1)
      end
  | Rejected _ =>
      mkRun tt
            (on_store (setLoading false)
                      (on_store refresh_failed (with_local (storage g1) w0)))
            (trace g1 ++ [failed])
  end.

Definition getJobById (w : World) (id : string) : option JobType :=
  Js.find (fun job => String.eqb (job_id job) id) (jobs (store w)).

Definition createJob (w : World) (jobData : JobData) (resp : Response JobType)
           (r1 r2 : Response (list JobType)) : Run (option JobType) :=
  let g := jobService.createJob (local w) jobData resp in
  match outcome g with
  | Resolved createdJob =>
      let refreshed := refreshJobs (with_local (storage g) w) r1 r2 in
      mkRun (Some createdJob) (world refreshed)
            (trace g ++ events refreshed ++
             [toast Default "Propuesta creada" "La propuesta se ha creado correctamente."])
  | Rejected _ =>
      mkRun None (with_local (storage g) w)
            (trace g ++ [toast Destructive "Error" "Error al crear la propuesta."])
  end.

(** [prevJobs.map(job => job.id === jobId ? updatedJob : job)] *)
Definition replace_job (jobId : string) (updatedJob : JobType)
           (prevJobs : list JobType) : list JobType :=
  map (fun job => if String.eqb (job_id job) jobId then updatedJob else job) prevJobs.

Definition updateJob (w : World) (jobId : string) (jobData : JobData)
           (resp : Response JobType) : Run (option JobType) :=
  let g := jobService.updateJob (local w) jobId jobData resp in
  let w' := with_local (storage g) w in
  match outcome g with
  | Resolved (Some updatedJob) =>
      mkRun (Some updatedJob)
            (on_store (fun s => setFilteredJobs (replace_job jobId updatedJob)
                                  (setUserJobs (replace_job jobId updatedJob)
                                     (setJobs (replace_job jobId updatedJob) s))) w')
            (trace g ++
             [toast Default "Propuesta actualizada"
                    "La propuesta se ha actualizado correctamente."])
  | Resolved None => mkRun None w' (trace g)
  | Rejected _ =>
      mkRun None w'
            (trace g ++ [toast Destructive "Error" "Error al actualizar la propuesta."])
  end.

(** [prevJobs.filter(job => job.id !== jobId)] *)
Definition remove_job (jobId : string) (prevJobs : list JobType) : list JobType :=
  filter (fun job => negb (String.eqb (job_id job) jobId)) prevJobs.

Definition deleteJob (w : World) (jobId : string) (resp : Response unit) : Run bool :=
  let g := jobService.deleteJob (local w) jobId resp in
  let w' := with_local (storage g) w in
  match outcome g with
  | Resolved true =>
      mkRun true
            (on_store (fun s => setFilteredJobs (remove_job jobId)
                                  (setUserJobs (remove_job jobId)
                                     (setJobs (remove_job jobId) s))) w')
            (trace g ++
             [toast Default "Propuesta eliminada"
                    "La propuesta ha sido eliminada correctamente."])
  | Resolved false => mkRun false w' (trace g)
  | Rejected _ =>
      mkRun false w'
            (trace g ++ [toast Destructive "Error" "Error al eliminar la propuesta."])
  end.

(** *** Comments *)

(** The comment [addComment] shows at once; [now_id] and [now_ts] are the
    two readings of [Date.now()]. *)
Definition tempComment (user : UserType) (jobId text : string) (now_id now_ts : Z)
  : CommentType :=
  mkComment ("temp-" ++ Js.of_int now_id)%string (user_id user) jobId text None now_ts
            (user_name user) (Js.or_default (user_photoURL user) "") (Some []).

(** The first updater of [addComment]. *)
Definition append_comment (jobId : string) (temp : CommentType)
           (prevJobs : list JobType) : list JobType :=
  map (fun job =>
         if String.eqb (job_id job) jobId then
           with_comments job (Some (Js.or_nil (job_comments job) ++ [temp]))
         else job)
      prevJobs.

(** [cs?.filter(c => c.id !== id)] *)
Definition without_comment (id : string) (cs : option (list CommentType))
  : option (list CommentType) :=
  option_map (filter (fun c => negb (String.eqb (comment_id c) id))) cs.

(** The second updater of [addComment]. *)
Definition reconcile_comment (jobId : string) (temp comment : CommentType)
           (prevJobs : list JobType) : list JobType :=
  map (fun job =>
         if String.eqb (job_id job) jobId then
           let filteredComments :=
             Js.or_nil (without_comment (comment_id temp) (job_comments job)) in
           with_comments job (Some (filteredComments ++ [comment]))
         else job)
      prevJobs.

(** The comments of the first job [jobId], [[]] when there is none. *)
Definition comments_of (jobId : string) (js : list JobType) : list CommentType :=
  match Js.find (fun job => String.eqb (job_id job) jobId) js with
  | Some job => Js.or_nil (job_comments job)
  | None => []
  end.

(** What the [catch] of [addComment] returns, read from the [jobs] its
    closure holds. *)
Definition first_temp (closure_jobs : list JobType) (jobId : string)
  : option CommentType :=
  match Js.find (fun job => String.eqb (job_id job) jobId) closure_jobs with
  | Some job =>
      match job_comments job with
      | Some cs => Js.find (fun c => Js.startsWith "temp-" (comment_id c)) cs
      | None => None
      end
  | None => None
  end.

Definition must_log_in_to_comment : Event :=
  toast Destructive "Error" "Debes iniciar sesión para comentar.".

(** [addComment] once the gateway call has settled with [g], in the world
    [w] the first updater left. *)
Definition addComment_settle (closure_jobs : list JobType) (w : World)
           (jobId : string) (temp : CommentType) (g : Eff CommentType)
  : Run (option CommentType) :=
  let w' := with_local (storage g) w in
  match outcome g with
  | Resolved comment =>
      mkRun (Some comment)
            (on_store (setJobs (reconcile_comment jobId temp comment)) w')
            (trace g ++
             [toast Default "Comentario publicado"
                    "Tu comentario ha sido publicado correctamente."])
  | Rejected _ =>
      mkRun (first_temp closure_jobs jobId) w'
            (trace g ++
             [toast Destructive "Error"
                    "Error al publicar el comentario en el servidor, pero se muestra localmente."])
  end.

(** [addComment] up to the [await]: the temporary comment and the world
    with it merged in. *)
Definition addComment_begin (w : World) (user : UserType) (jobId text : string)
           (now_id now_ts : Z) : CommentType * World :=
  let temp := tempComment user jobId text now_id now_ts in
  (temp, on_store (setJobs (append_comment jobId temp)) w).

(** [resp], [uuid] and [now] are what the gateway call meets: the answer
    to its request, and [uuidv4()] and [Date.now()] in its fallback. *)
Definition addComment (w : World) (jobId text : string) (now_id now_ts : Z)
           (resp : Response CommentType) (uuid : Outcome string) (now : Z)
  : Run (option CommentType) :=
  match currentUser w with
  | None => mkRun None w [must_log_in_to_comment]
  | Some user =>
      let (temp, w1) := addComment_begin w user jobId text now_id now_ts in
      let g := jobService.addComment decodeToken (local w1) jobId text resp uuid now in
      addComment_settle (jobs (store w)) w1 jobId temp g
  end.

(** *** Replies *)

Definition tempReply (user : UserType) (commentId text : string) (now_id now_ts : Z)
  : ReplyType :=
  mkReply ("temp-reply-" ++ Js.of_int now_id)%string (user_id user) commentId text
          (Some text) now_ts (user_name user) (Js.or_default (user_photoURL user) "").

(** [job.comments?.map(f)] inside [{ ...job, comments: ... }] for the job
    [jobId]. *)
Definition map_comments_of (jobId : string) (f : CommentType -> CommentType)
           (prevJobs : list JobType) : list JobType :=
  map (fun job =>
         if String.eqb (job_id job) jobId then
           with_comments job (option_map (map f) (job_comments job))
         else job)
      prevJobs.

(** The first updater of [addReply]. *)
Definition append_reply (jobId commentId : string) (temp : ReplyType)
  : list JobType -> list JobType :=
  map_comments_of jobId
    (fun comment =>
       if String.eqb (comment_id comment) commentId then
         with_replies comment (Some (Js.or_nil (comment_replies comment) ++ [temp]))
       else comment).

(** The second updater of [addReply]. *)
Definition reconcile_reply (jobId commentId : string) (temp reply : ReplyType)
  : list JobType -> list JobType :=
  map_comments_of jobId
    (fun comment =>
       if String.eqb (comment_id comment) commentId then
         let filteredReplies :=
           Js.or_nil (option_map
                        (filter (fun r => negb (String.eqb (reply_id r) (reply_id temp))))
                        (comment_replies comment)) in
         with_replies comment (Some (filteredReplies ++ [reply]))
       else comment).

Definition addReply (w : World) (commentId jobId text : string) (now_id now_ts : Z)
           (resp : Response ReplyType) (uuid : Outcome string) (now : Z)
  : Run (option ReplyType) :=
  match currentUser w with
  | None => mkRun None w [toast Destructive "Error" "Debes iniciar sesión para responder."]
  | Some user =>
      let temp := tempReply user commentId text now_id now_ts in
      let w1 := on_store (setJobs (append_reply jobId commentId temp)) w in
      let g := jobService.addReply decodeToken (local w1) commentId text resp uuid now in
      let w2 := with_local (storage g) w1 in
      match outcome g with
      | Resolved reply =>
          mkRun (Some reply)
                (on_store (setJobs (reconcile_reply jobId commentId temp reply)) w2)
                (trace g ++
                 [toast Default "Respuesta publicada"
                        "Tu respuesta ha sido publicada correctamente."])
      | Rejected _ =>
          mkRun (Some temp) w2
                (trace g ++
                 [toast Destructive "Error"
                        "Error al publicar la respuesta en el servidor, pero se muestra localmente."])
      end
  end.

(** The updater of [deleteComment]: every job loses the comment. *)
Definition sweep_comment (commentId : string) (prevJobs : list JobType)
  : list JobType :=
  map (fun job => with_comments job (without_comment commentId (job_comments job)))
      prevJobs.

Definition deleteComment (w : World) (commentId : string) (resp : Response unit)
  : Run unit :=
  let g := jobService.deleteComment (local w) commentId resp in
  let w' := with_local (storage g) w in
  match outcome g with
  | Resolved _ =>
      mkRun tt (on_store (setJobs (sweep_comment commentId)) w')
            (trace g ++
             [toast Default "Comentario eliminado"
                    "El comentario ha sido eliminado correctamente."])
  | Rejected _ =>
      mkRun tt w'
            (trace g ++ [toast Destructive "Error" "Error al eliminar el comentario."])
  end.

Definition saveJob (w : World) (jobId : string) : Run unit :=
  mkRun tt w
        [toast Default "Funcionalidad no implementada"
               "La funcionalidad de guardar trabajos será implementada próximamente."].

Definition unsaveJob (w : World) (jobId : string) : Run unit :=
  mkRun tt w
        [toast Default "Funcionalidad no implementada"
               "La funcionalidad de quitar trabajos guardados será implementada próximamente."].

(** *** Sequences of operations

    A mutation together with everything it meets from outside. *)
Inductive Mutation : Type :=
| RefreshJobs (r1 r2 : Response (list JobType))
| CreateJob (jobData : JobData) (resp : Response JobType)
            (r1 r2 : Response (list JobType))
| UpdateJob (jobId : string) (jobData : JobData) (resp : Response JobType)
| DeleteJob (jobId : string) (resp : Response unit)
| AddComment (jobId text : string) (now_id now_ts : Z)
             (resp : Response CommentType) (uuid : Outcome string) (now : Z)
| AddReply (commentId jobId text : string) (now_id now_ts : Z)
           (resp : Response ReplyType) (uuid : Outcome string) (now : Z)
| DeleteComment (commentId : string) (resp : Response unit).

Definition step (w : World) (m : Mutation) : World * list Event :=
  match m with
  | RefreshJobs r1 r2 =>
      let r := refreshJobs w r1 r2 in (world r, events r)
  | CreateJob jobData resp r1 r2 =>
      let r := createJob w jobData resp r1 r2 in (world r, events r)
  | UpdateJob jobId jobData resp =>
      let r := updateJob w jobId jobData resp in (world r, events r)
  | DeleteJob jobId resp =>
      let r := deleteJob w jobId resp in (world r, events r)
  | AddComment jobId text now_id now_ts resp uuid now =>
      let r := addComment w jobId text now_id now_ts resp uuid now in
      (world r, events r)
  | AddReply commentId jobId text now_id now_ts resp uuid now =>
      let r := addReply w commentId jobId text now_id now_ts resp uuid now in
      (world r, events r)
  | DeleteComment commentId resp =>
      let r := deleteComment w commentId resp in (world r, events r)
  end.

Fixpoint run (w : World) (ms : list Mutation) : World :=
  match ms with
  | [] => w
  | m :: rest => run (fst (step w m)) rest
  end.

End Provider.

End JobProvider.

(** ** Identifiers *)

(** The predicate of the entity model: an identifier made by the client. *)
Definition isTemporary (id : string) : bool := Js.startsWith "temp-" id.

Definition is_hex (c : ascii) : bool :=
  let n := nat_of_ascii c in
  ((48 <=? n)%nat && (n <=? 57)%nat) || ((97 <=? n)%nat && (n <=? 102)%nat).

Fixpoint all_hex (s : string) : bool :=
  match s with
  | EmptyString => true
  | String c rest => is_hex c && all_hex rest
  end.

(** The shape of what [uuidv4()] returns: five groups of lower-case
    hexadecimal digits, 8-4-4-4-12, joined by hyphens. *)
Definition is_uuid (s : string) : bool :=
  (String.length s =? 36)%nat
  && all_hex (substring 0 8 s)
  && String.eqb (substring 8 1 s) "-"
  && all_hex (substring 9 4 s)
  && String.eqb (substring 13 1 s) "-"
  && all_hex (substring 14 4 s)
  && String.eqb (substring 18 1 s) "-"
  && all_hex (substring 19 4 s)
  && String.eqb (substring 23 1 s) "-"
  && all_hex (substring 24 12 s).

(** ** Views of a job list the statements use *)

(** The number of comments of [cs] whose identifier is [id]. *)
Definition occurrences (id : string) (cs : list CommentType) : nat :=
  List.length (filter (fun c => String.eqb (comment_id c) id) cs).

(** Some job of [js] has the identifier [jobId]. *)
Definition has_job (jobId : string) (js : list JobType) : Prop :=
  exists job, In job js /\ job_id job = jobId.

(** Every job of [js] has its comment sequence. *)
Definition comments_present (js : list JobType) : Prop :=
  Forall (fun job => job_comments job <> None) js.

(** The three views the provider derives from [jobs] agree with it: the
    popular jobs are its first three, the filtered jobs are all of it and
    the user's jobs are those [userId] owns. *)
Definition views_agree (userId : string) (s : Store) : Prop :=
  popularJobs s = Js.slice0 3 (jobs s)
  /\ filteredJobs s = jobs s
  /\ userJobs s = filter (fun job => String.eqb (job_userId job) userId) (jobs s).

(** ** Sample data *)

Module Sample.

Definition alice : UserType := mkUser "u1" "Alice" None.

Definition job (id : string) : JobType :=
  mkJob id ("Job " ++ id) "description" "web" 100 Open "u1" 1700000000000 (Some []).

Definition A : JobType := job "A".
Definition B : JobType := job "B".
Definition C : JobType := job "C".
Definition D : JobType := job "D".

(** A job as a server sends it when it leaves the comments out. *)
Definition bare (id : string) : JobType :=
  mkJob id "Retitled" "description" "web" 250 InProgress "u1" 1700000000000 None.

Definition comment (id text : string) : CommentType :=
  mkComment id "u2" "A" text None 1700000000500 "Bob" "" (Some []).

Definition storage0 : Storage := mkStorage None None false.

Definition world0 : World := mkWorld initialStore storage0 (Some alice).

Definition noToken : string -> option UserInfo := fun _ => None.

Definition offline {A : Type} : Response A :=
  Threw (Js.AxiosError "Network Error" None None).

Definition uuid0 : string := "9b1deb4d-3b7d-4bad-9bdd-2b0d7b3dcb6d".

Definition t0 : Z := 1700000001000.

Definition jobData0 : JobData := mkJobData (Some "Logo") (Some "A logo") (Some "design") None None.

Definition jobData1 : JobData :=
  mkJobData (Some "Logo") (Some "A logo") (Some "design") (Some 50%Z) None.

(** The provider after a first successful refresh with four jobs. *)
Definition world4 : World :=
  JobProvider.run noToken world0
    [JobProvider.RefreshJobs (Success [A; B; C; D]) (Success [A; B; C; D])].

(** The provider after a first successful refresh with the one job [A]. *)
Definition world1 : World :=
  JobProvider.run noToken world0
    [JobProvider.RefreshJobs (Success [A]) (Success [A])].

End Sample.

(** ** [userService] *)

Module userService.

Definition getUserById (st : Storage) (id : string) (resp : Response UserType)
  : Eff (option UserType) :=
  let request := ERequest GET ("/users/" ++ id) in
  match resp with
  | Success user => mkEff (Resolved (Some user)) st [request]
  | Refused _ => mkEff (Resolved None) st [request]
  | Threw e => mkEff (Rejected e) st [request]
  end.

End userService.

(** ** Replies of a comment *)

(** The replies of the first comment [commentId] of the first job [jobId],
    [[]] when there is none. *)
Definition replies_of (jobId commentId : string) (js : list JobType) : list ReplyType :=
  match Js.find (fun c => String.eqb (comment_id c) commentId)
                (JobProvider.comments_of jobId js) with
  | Some c => Js.or_nil (comment_replies c)
  | None => []
  end.

(** The number of replies of [rs] whose identifier is [id]. *)
Definition reply_occurrences (id : string) (rs : list ReplyType) : nat :=
  List.length (filter (fun r => String.eqb (reply_id r) id) rs).

(** Some comment of [cs] has the identifier [commentId]. *)
Definition has_comment (commentId : string) (cs : list CommentType) : Prop :=
  exists c, In c cs /\ comment_id c = commentId.

(** ** [ProfilePage] *)

Module ProfilePage.

Record ProfileForm : Type := mkProfileForm {
  form_name : string;
  form_email : string;
  form_bio : string;
  form_skills : list string
}.

(** [{ ...profileForm, skills }] *)
Definition with_skills (form : ProfileForm) (skills : list string) : ProfileForm :=
  mkProfileForm (form_name form) (form_email form) (form_bio form) skills.

(** [skills.includes(skill)] *)
Definition includes (skill : string) (skills : list string) : bool :=
  existsb (String.eqb skill) skills.

(** The form and the selected skill after [handleAddSkill(skill)]. *)
Definition handleAddSkill (form : ProfileForm) (selectedSkill skill : string)
  : ProfileForm * string :=
  if String.eqb skill "" || includes skill (form_skills form) then (form, selectedSkill)
  else (with_skills form (form_skills form ++ [skill]), "").

Definition handleRemoveSkill (form : ProfileForm) (skill : string) : ProfileForm :=
  with_skills form (filter (fun s => negb (String.eqb s skill)) (form_skills form)).

(** The skills the select offers:
    [skillsList.filter(skill => !profileForm.skills.includes(skill))]. *)
Definition offeredSkills (skillsList : list string) (form : ProfileForm) : list string :=
  filter (fun skill => negb (includes skill (form_skills form))) skillsList.

(** The state of the page the job handlers use. *)
Record Page : Type := mkPage {
  editingJob : option JobType;
  isSubmittingJob : bool
}.

Definition handleEditJob (page : Page) (job : JobType) : Page :=
  mkPage (Some job) (isSubmittingJob page).

Definition handleCancelEdit (page : Page) : Page :=
  mkPage None (isSubmittingJob page).

(** [userJobs.filter(job => job.userId === currentUser.id)] *)
Definition myJobs (user : UserType) (w : World) : list JobType :=
  filter (fun job => String.eqb (job_userId job) (user_id user)) (userJobs (store w)).

Section Handlers.

Variable decodeToken : string -> option UserInfo.

(** [updateJob] and [refreshJobs] of the provider never reject, so the
    [catch] of the handler has nothing to catch. *)
Definition handleUpdateJob (page : Page) (w : World) (jobData : JobData)
           (resp : Response JobType) (r1 r2 : Response (list JobType))
  : Page * World * list Event :=
  match editingJob page with
  | None => (page, w, [])
  | Some job =>
      let updated := JobProvider.updateJob w (job_id job) jobData resp in
      let refreshed := JobProvider.refreshJobs (world updated) r1 r2 in
      (mkPage None false, world refreshed,
       events updated ++ events refreshed ++
       [toast Default "Propuesta actualizada"
              "La propuesta ha sido actualizada correctamente"])
  end.

Definition handleDeleteJob (w : World) (jobId : string) (resp : Response unit)
           (r1 r2 : Response (list JobType)) : World * list Event :=
  let deleted := JobProvider.deleteJob w jobId resp in
  if returned deleted then
    let refreshed := JobProvider.refreshJobs (world deleted) r1 r2 in
    (world refreshed,
     events deleted ++ events refreshed ++
     [toast Default "Propuesta eliminada"
            "La propuesta ha sido eliminada correctamente"])
  else (world deleted, events deleted).

End Handlers.

End ProfilePage.

(** ** [ChatMobileSheet] *)

Module ChatMobileSheet.

Record MessageType : Type := mkMessage {
  message_id : string;
  message_senderId : string;
  message_content : string;
  message_timestamp : string;
  message_deleted : bool
}.

(** What the sheet shows for the messages, top to bottom. *)
Inductive Item : Type :=
| NoMessages
| DateSeparator (timestamp : string)
| SystemNote (content : string)
| Bubble (message : MessageType) (mine menu : bool).

Section Sheet.

(** [new Date(timestamp).toDateString()] *)
Variable toDateString : string -> string.

Variable currentUser : option UserType.

(** Both [onEditMessage] and [onDeleteMessage] were given. *)
Variable handlers : bool.

Definition isCurrentUser (message : MessageType) : bool :=
  match currentUser with
  | Some user => String.eqb (message_senderId message) (user_id user)
  | None => false
  end.

Definition isSystemMessage (message : MessageType) : bool :=
  String.eqb (message_senderId message) "system".

(** [index === 0 || day(message) !== day(messages[index - 1])], with
    [previous] the message before, if any. *)
Definition showDateSeparator (previous : option MessageType) (message : MessageType)
  : bool :=
  match previous with
  | None => true
  | Some before =>
      negb (String.eqb (toDateString (message_timestamp message))
                       (toDateString (message_timestamp before)))
  end.

Definition message_item (message : MessageType) : Item :=
  if isSystemMessage message then SystemNote (message_content message)
  else Bubble message (isCurrentUser message)
              (isCurrentUser message && negb (message_deleted message) && handlers).

Fixpoint items_from (previous : option MessageType) (messages : list MessageType)
  : list Item :=
  match messages with
  | [] => []
  | message :: rest =>
      (if showDateSeparator previous message
       then [DateSeparator (message_timestamp message)] else [])
      ++ message_item message :: items_from (Some message) rest
  end.

Definition items (messages : list MessageType) : list Item :=
  match messages with
  | [] => [NoMessages]
  | _ => items_from None messages
  end.

End Sheet.

Definition is_separator (i : Item) : bool :=
  match i with DateSeparator _ => true | _ => false end.

Definition has_menu (i : Item) : bool :=
  match i with Bubble _ _ menu => menu | _ => false end.

(** The number of places where the day changes from one message to the
    next. *)
Fixpoint day_changes (toDateString : string -> string) (messages : list MessageType)
  : nat :=
  match messages with
  | first :: (second :: _) as rest =>
      (if String.eqb (toDateString (message_timestamp second))
                     (toDateString (message_timestamp first))
       then 0 else 1) + day_changes toDateString rest
  | _ => 0
  end.

(** Whether a date separator stands before the message at [index], as the
    sheet decides it:
    [index === 0 || day(messages[index]) !== day(messages[index - 1])]. *)
Definition separator_at (toDateString : string -> string) (messages : list MessageType)
           (index : nat) : bool :=
  match index with
  | 0 => true
  | S before =>
      match nth_error messages index, nth_error messages before with
      | Some message, Some previous =>
          negb (String.eqb (toDateString (message_timestamp message))
                           (toDateString (message_timestamp previous)))
      | _, _ => false
      end
  end.

(** What the callback of [messages.map] returns for [index]: the separator,
    if one stands there, and then the message. *)
Definition items_at (toDateString : string -> string) (currentUser : option UserType)
           (handlers : bool) (messages : list MessageType) (index : nat) : list Item :=
  match nth_error messages index with
  | Some message =>
      (if separator_at toDateString messages index
       then [DateSeparator (message_timestamp message)] else [])
      ++ [message_item currentUser handlers message]
  | None => []
  end.

End ChatMobileSheet.

(** ** Conditions on sequences of mutations *)

(** The answer to an update, when it is a success, carries the comments of
    the job. *)
Definition update_carries_comments (m : JobProvider.Mutation) : Prop :=
  match m with
  | JobProvider.UpdateJob _ _ (Success job) => job_comments job <> None
  | _ => True
  end.

(** What the provider keeps when no update loses the comments: every job of
    the job list and of the cached snapshot has its comment sequence. *)
Definition comments_kept (w : World) : Prop :=
  comments_present (jobs (store w))
  /\ comments_present (jobService.cached_or_empty (local w)).

(** What no mutation touches, from a world [w] to a later one [w']: the
    user, the token, whether the storage takes writes; the saved jobs stay
    empty and [loading] stays off. *)
Definition untouched (w w' : World) : Prop :=
  currentUser w' = currentUser w
  /\ token (local w') = token (local w)
  /\ quotaExceeded (local w') = quotaExceeded (local w)
  /\ (savedJobs (store w) = [] -> savedJobs (store w') = [])
  /\ (loading (store w) = false -> loading (store w') = false).

(** * Properties *)

(** ** The gateway *)

Section GatewayFacts.

Variable decodeToken : string -> option UserInfo.

Lemma getAllJobs_resolves (st : Storage) (resp : Response (list JobType)) :
  exists allJobs, outcome (jobService.getAllJobs st resp) = Resolved allJobs.
Proof.
  destruct resp as [e | msg | js]; simpl; eauto.
Qed.

Lemma ensure_comments_present (js : list JobType) :
  comments_present (map jobService.ensure_comments js).
Proof.
  unfold comments_present.
  induction js as [| job rest IH]; simpl; constructor; auto.
  discriminate.
Qed.

Lemma trySetCachedJobs_accepted (v : list JobType) (st : Storage) :
  quotaExceeded st = false -> cachedJobs (trySetCachedJobs v st) = Some v.
Proof.
  intros Hq. unfold trySetCachedJobs, setCachedJobs. rewrite Hq. reflexivity.
Qed.

Lemma trySetCachedJobs_quota (v : list JobType) (st : Storage) :
  quotaExceeded (trySetCachedJobs v st) = quotaExceeded st.
Proof.
  unfold trySetCachedJobs, setCachedJobs.
  destruct (quotaExceeded st) eqn:Hq; simpl; auto.
Qed.

(** C8. A fetch of the job list whose request fails (axios rejects, or the
    answer is not a success) resolves with the cached snapshot when the
    slot holds one and with the empty list otherwise, and leaves the slot
    as it was.  A fetch that succeeds resolves with the jobs received
    (each with its comment sequence), writes exactly that list to the
    slot, and a store that accepts the write holds it afterwards, so that
    the next failing fetch returns it. *)
Theorem getAllJobs_cache_fallback (st : Storage) :
  (forall resp : Response (list JobType),
      transport_failure resp = true ->
      let g := jobService.getAllJobs st resp in
      outcome g = Resolved (match cachedJobs st with
                            | Some snapshot => snapshot
                            | None => []
                            end)
      /\ storage g = st
      /\ (forall v, ~ In (ESetCachedJobs v) (trace g)))
  /\ (forall (fetched : list JobType),
         let g := jobService.getAllJobs st (Success fetched) in
         let received := map jobService.ensure_comments fetched in
         outcome g = Resolved received
         /\ filter (fun e => negb (is_request e)) (trace g) = [ESetCachedJobs received]
         /\ (quotaExceeded st = false ->
             cachedJobs (storage g) = Some received
             /\ forall resp : Response (list JobType),
                 transport_failure resp = true ->
                 outcome (jobService.getAllJobs (storage g) resp) = Resolved received)).
Proof.
  split.
  - intros resp Hfail g. subst g.
    destruct resp as [e | msg | js]; simpl in *; try discriminate.
    + repeat split; auto.
      intros v [H | [H | []]]; discriminate.
    + repeat split; auto.
      intros v [H | []]; discriminate.
  - intros fetched g received. subst g received. simpl.
    repeat split; auto.
    + apply trySetCachedJobs_accepted; assumption.
    + intros resp Hfail.
      destruct resp as [e | msg | js]; simpl in *; try discriminate;
        unfold jobService.cached_or_empty;
        rewrite (trySetCachedJobs_accepted _ st H); reflexivity.
Qed.

(** A fetch on a store that accepts writes, followed by an offline fetch. *)
Lemma getAllJobs_cache_fallback_witness :
  let g := jobService.getAllJobs Sample.storage0 (Success [Sample.bare "A"]) in
  cachedJobs (storage g) = Some [jobService.ensure_comments (Sample.bare "A")]
  /\ outcome (jobService.getAllJobs (storage g) Sample.offline)
     = Resolved [jobService.ensure_comments (Sample.bare "A")]
  /\ outcome (jobService.getAllJobs Sample.storage0 Sample.offline) = Resolved [].
Proof.
  destruct (getAllJobs_cache_fallback Sample.storage0) as [Hfail Hok].
  destruct (Hok [Sample.bare "A"]) as (_ & _ & Hcache).
  destruct (Hcache eq_refl) as [Hslot Hnext].
  split; [exact Hslot |].
  split; [exact (Hnext Sample.offline eq_refl) |].
  exact (proj1 (Hfail Sample.offline eq_refl)).
Defined.

(** C7. [createJob] called without a title, a description or a category,
    or with an undefined budget, rejects with the error "Datos incompletos
    para crear la propuesta" (the validation error) and issues no request;
    a request is issued only when all four fields are present, and then it
    is issued. *)
Theorem createJob_validates_before_request
        (st : Storage) (jobData : JobData) (resp : Response JobType) :
  let g := jobService.createJob st jobData resp in
  (data_title jobData = None \/ data_description jobData = None
   \/ data_category jobData = None \/ data_budget jobData = None ->
   outcome g = Rejected (Js.Error jobService.incomplete)
   /\ filter is_request (trace g) = []
   /\ storage g = st)
  /\ (filter is_request (trace g) <> [] ->
      data_title jobData <> None /\ data_description jobData <> None
      /\ data_category jobData <> None /\ data_budget jobData <> None)
  /\ (jobService.missing_fields jobData = false ->
      filter is_request (trace g) = [ERequest POST "/jobs"]).
Proof.
  intros g.
  assert (Hmissing : data_title jobData = None \/ data_description jobData = None
                     \/ data_category jobData = None \/ data_budget jobData = None ->
                     jobService.missing_fields jobData = true).
  { unfold jobService.missing_fields.
    intros [H | [H | [H | H]]]; rewrite H; simpl;
      rewrite ?orb_true_r; reflexivity. }
  assert (Hquiet : jobService.missing_fields jobData = true ->
                   outcome g = Rejected (Js.Error jobService.incomplete)
                   /\ filter is_request (trace g) = [] /\ storage g = st).
  { intros H. subst g. unfold jobService.createJob. rewrite H. simpl. auto. }
  split; [| split].
  - intros H. apply Hquiet, Hmissing, H.
  - intros Hreq.
    destruct (jobService.missing_fields jobData) eqn:Hm.
    + destruct (Hquiet eq_refl) as (_ & Hnone & _). contradiction.
    + repeat split; intros Habs;
        assert (Ht : false = true) by (apply Hmissing; tauto);
        discriminate.
  - intros Hm. subst g. unfold jobService.createJob. rewrite Hm.
    destruct resp as [e | msg | job]; reflexivity.
Qed.

(** The scenario of the budget left undefined, and a complete form. *)
Lemma createJob_validates_before_request_witness :
  (outcome (jobService.createJob Sample.storage0 Sample.jobData0
                                 (Success (Sample.job "N")))
   = Rejected (Js.Error jobService.incomplete)
   /\ filter is_request
             (trace (jobService.createJob Sample.storage0 Sample.jobData0
                                          (Success (Sample.job "N")))) = [])
  /\ data_budget Sample.jobData1 <> None
  /\ filter is_request
            (trace (jobService.createJob Sample.storage0 Sample.jobData1
                                         (Success (Sample.job "N"))))
     = [ERequest POST "/jobs"].
Proof.
  pose proof (createJob_validates_before_request
                Sample.storage0 Sample.jobData0 (Success (Sample.job "N"))) as H0.
  pose proof (createJob_validates_before_request
                Sample.storage0 Sample.jobData1 (Success (Sample.job "N"))) as H1.
  cbv zeta in H0, H1.
  destruct H0 as (Hmiss & _ & _).
  destruct H1 as (_ & Hreq & Hall).
  split.
  - destruct Hmiss as (Hout & Hnone & _).
    + right. right. right. reflexivity.
    + split; assumption.
  - pose proof (Hall eq_refl) as Hsent.
    split; [| exact Hsent].
    apply Hreq. rewrite Hsent. discriminate.
Defined.

End GatewayFacts.

(** ** Identifiers *)

Lemma of_int_inj (a b : Z) : Js.of_int a = Js.of_int b -> a = b.
Proof.
  unfold Js.of_int. intros H.
  apply DecimalZ.to_int_inj.
  apply (f_equal NilEmpty.int_of_string) in H.
  rewrite !NilEmpty.isi in H. congruence.
Qed.

Lemma of_int_not_reply (a : Z) (s : string) : Js.of_int a <> ("reply-" ++ s)%string.
Proof.
  unfold Js.of_int. intros H.
  apply (f_equal NilEmpty.int_of_string) in H.
  rewrite NilEmpty.isi in H. simpl in H.
  destruct (NilEmpty.uint_of_string _); discriminate.
Qed.

Lemma startsWith_cons (a b : ascii) (p s : string) :
  Js.startsWith (String a p) (String b s)
  = if ascii_dec a b then Js.startsWith p s else false.
Proof.
  unfold Js.startsWith. simpl. destruct (ascii_dec a b); reflexivity.
Qed.

Lemma startsWith_append (p s : string) : Js.startsWith p (p ++ s)%string = true.
Proof.
  unfold Js.startsWith.
  induction p as [| a p IH]; simpl.
  - destruct s; reflexivity.
  - destruct (ascii_dec a a); [exact IH | contradiction].
Qed.

Lemma tempComment_isTemporary (user : UserType) (jobId text : string) (now_id now_ts : Z) :
  isTemporary (comment_id (JobProvider.tempComment user jobId text now_id now_ts)) = true.
Proof. apply startsWith_append. Qed.

Lemma tempReply_isTemporary (user : UserType) (commentId text : string) (now_id now_ts : Z) :
  isTemporary (reply_id (JobProvider.tempReply user commentId text now_id now_ts)) = true.
Proof. apply (startsWith_append "temp-" ("reply-" ++ Js.of_int now_id)). Qed.

Lemma is_uuid_starts_hex (s : string) :
  is_uuid s = true -> exists c rest, s = String c rest /\ is_hex c = true.
Proof.
  destruct s as [| c rest]; [discriminate |].
  unfold is_uuid. rewrite !andb_true_iff.
  intros (((((((((_ & H) & _) & _) & _) & _) & _) & _) & _) & _).
  simpl in H. apply andb_true_iff in H. destruct H as [Hc _].
  eauto.
Qed.

Lemma is_uuid_not_temporary (s : string) : is_uuid s = true -> isTemporary s = false.
Proof.
  intros H. destruct (is_uuid_starts_hex s H) as (c & rest & -> & Hc).
  unfold isTemporary. rewrite startsWith_cons.
  destruct (ascii_dec "t" c) as [<- | Hne]; [discriminate Hc | reflexivity].
Qed.

(** Two optimistic comments of one job made at the same reading of the
    clock: both are in the comment sequence, they are different comments,
    and they carry the same identifier. *)
Lemma temp_ids_collide_within_a_millisecond :
  let c1 := JobProvider.tempComment Sample.alice "A" "first" Sample.t0 Sample.t0 in
  let c2 := JobProvider.tempComment Sample.alice "A" "second" Sample.t0 Sample.t0 in
  let w1 := snd (JobProvider.addComment_begin Sample.world1 Sample.alice "A" "first"
                                              Sample.t0 Sample.t0) in
  let w2 := snd (JobProvider.addComment_begin w1 Sample.alice "A" "second"
                                              Sample.t0 Sample.t0) in
  JobProvider.comments_of "A" (jobs (store w2)) = [c1; c2]
  /\ c1 <> c2
  /\ comment_id c1 = comment_id c2.
Proof.
  cbv zeta. split; [reflexivity |]. split; [| reflexivity].
  intros H. apply (f_equal comment_text) in H. discriminate H.
Qed.

(** C9, as the code has it. The temporary identifier of an optimistic
    comment is "temp-" followed by the reading of the clock in decimal, that
    of an optimistic reply is "temp-reply-" followed by it; both carry the
    reserved prefix "temp-".  Two optimistic comments, or two optimistic
    replies, have the same identifier exactly when they were made at the
    same reading of the clock, whatever the user, the job or comment and the
    text; the identifier of an optimistic comment differs from that of
    every optimistic reply. *)
Theorem temp_ids_prefixed_and_distinct_by_clock :
  (forall user jobId text now_id now_ts,
      comment_id (JobProvider.tempComment user jobId text now_id now_ts)
      = ("temp-" ++ Js.of_int now_id)%string)
  /\ (forall user commentId text now_id now_ts,
         reply_id (JobProvider.tempReply user commentId text now_id now_ts)
         = ("temp-reply-" ++ Js.of_int now_id)%string)
  /\ (forall user jobId text now_id now_ts,
         isTemporary (comment_id (JobProvider.tempComment user jobId text now_id now_ts))
         = true)
  /\ (forall user commentId text now_id now_ts,
         isTemporary (reply_id (JobProvider.tempReply user commentId text now_id now_ts))
         = true)
  /\ (forall user jobId text now_id now_ts user' jobId' text' now_id' now_ts',
         comment_id (JobProvider.tempComment user jobId text now_id now_ts)
         = comment_id (JobProvider.tempComment user' jobId' text' now_id' now_ts')
         <-> now_id = now_id')
  /\ (forall user commentId text now_id now_ts user' commentId' text' now_id' now_ts',
         reply_id (JobProvider.tempReply user commentId text now_id now_ts)
         = reply_id (JobProvider.tempReply user' commentId' text' now_id' now_ts')
         <-> now_id = now_id')
  /\ (forall user jobId text now_id now_ts user' commentId' text' now_id' now_ts',
         comment_id (JobProvider.tempComment user jobId text now_id now_ts)
         <> reply_id (JobProvider.tempReply user' commentId' text' now_id' now_ts')).
Proof.
  split; [reflexivity |].
  split; [reflexivity |].
  split; [exact tempComment_isTemporary |].
  split; [exact tempReply_isTemporary |].
  split; [| split].
  - intros *. split.
    + intros Hid. simpl in Hid. injection Hid as Hid. apply of_int_inj. exact Hid.
    + intros ->. reflexivity.
  - intros *. split.
    + intros Hid. simpl in Hid. injection Hid as Hid. apply of_int_inj. exact Hid.
    + intros ->. reflexivity.
  - intros * Hid. simpl in Hid.
    injection Hid as Hid. exact (of_int_not_reply _ _ Hid).
Qed.

(** Two comments made one millisecond apart, and two replies made in the
    same millisecond to different comments. *)
Lemma temp_ids_prefixed_and_distinct_by_clock_witness :
  comment_id (JobProvider.tempComment Sample.alice "A" "first" Sample.t0 Sample.t0)
  <> comment_id (JobProvider.tempComment Sample.alice "A" "second"
                                         (Sample.t0 + 1) (Sample.t0 + 1))
  /\ reply_id (JobProvider.tempReply Sample.alice "c-17" "yes" Sample.t0 Sample.t0)
     = reply_id (JobProvider.tempReply Sample.alice "c-18" "no" Sample.t0 Sample.t0)
  /\ reply_id (JobProvider.tempReply Sample.alice "c-17" "yes" Sample.t0 Sample.t0)
     = "temp-reply-1700000001000".
Proof.
  destruct temp_ids_prefixed_and_distinct_by_clock
    as (_ & Hformat & _ & _ & Hcomments & Hreplies & _).
  split; [| split].
  - intros Hid. apply Hcomments in Hid. unfold Sample.t0 in Hid. lia.
  - apply Hreplies. reflexivity.
  - rewrite Hformat. reflexivity.
Defined.

(** ** The fallback of the gateway's [addComment] *)

Section FallbackFacts.

Variable decodeToken : string -> option UserInfo.

(** What [cache_merge] does to each cached job. *)
Lemma cache_merge_pointwise (jobId : string) (c : CommentType) (snapshot : list JobType) :
  Forall2 (fun job job' =>
             job_id job' = job_id job
             /\ job_comments job'
                = if String.eqb (job_id job) jobId
                  then Some (Js.or_nil (job_comments job) ++ [c])
                  else job_comments job)
          snapshot (jobService.cache_merge jobId c snapshot).
Proof.
  induction snapshot as [| job rest IH]; simpl; constructor; auto.
  destruct (String.eqb (job_id job) jobId); simpl; auto.
Qed.

Lemma addComment_rejects_only_without_uuid
      (st : Storage) (jobId text : string) (resp : Response CommentType)
      (uuid : Outcome string) (now : Z) (e : Js.error) :
  outcome (jobService.addComment decodeToken st jobId text resp uuid now) = Rejected e ->
  uuid = Rejected e /\ transport_failure resp = true
  /\ trace (jobService.addComment decodeToken st jobId text resp uuid now)
     = [ERequest POST ("/jobs/" ++ jobId ++ "/comments")]
  /\ storage (jobService.addComment decodeToken st jobId text resp uuid now) = st.
Proof.
  unfold jobService.addComment.
  destruct resp as [e' | msg | c]; destruct uuid as [id | e'']; simpl;
    try destruct (cachedJobs st); simpl; intros H; try discriminate;
    injection H as ->; auto.
Qed.

(** C10. Whatever the answer to its request, the gateway's [addComment]
    resolves as long as [uuidv4()] returns: it rejects only when the request
    failed and [uuidv4()] threw in the fallback.  When the request throws or
    is refused, it resolves with a comment made locally, whose text is the
    text given and whose identifier is the uuid, which does not carry the
    prefix "temp-"; when a snapshot is cached, it writes the snapshot with
    that comment appended to the job [jobId], and a store that accepts the
    write holds it afterwards.  Hence the provider's [addComment], called by
    a logged-in user, emits a failure notification only when [uuidv4()]
    threw. *)
Theorem addComment_gateway_falls_back_locally
        (st : Storage) (jobId text : string) (now : Z) :
  (forall (resp : Response CommentType) (id : string),
      transport_failure resp = true ->
      is_uuid id = true ->
      let g := jobService.addComment decodeToken st jobId text resp (Resolved id) now in
      exists c,
        outcome g = Resolved c
        /\ comment_text c = text
        /\ comment_id c = id
        /\ isTemporary (comment_id c) = false
        /\ forall snapshot,
            cachedJobs st = Some snapshot ->
            In (ESetCachedJobs (jobService.cache_merge jobId c snapshot)) (trace g)
            /\ Forall2 (fun job job' =>
                          job_id job' = job_id job
                          /\ job_comments job'
                             = if String.eqb (job_id job) jobId
                               then Some (Js.or_nil (job_comments job) ++ [c])
                               else job_comments job)
                       snapshot (jobService.cache_merge jobId c snapshot)
            /\ (quotaExceeded st = false ->
                cachedJobs (storage g) = Some (jobService.cache_merge jobId c snapshot)))
  /\ (forall (resp : Response CommentType) (uuid : Outcome string) (e : Js.error),
         outcome (jobService.addComment decodeToken st jobId text resp uuid now)
         = Rejected e ->
         uuid = Rejected e /\ transport_failure resp = true)
  /\ (forall (w : World) (now_id now_ts : Z) (resp : Response CommentType)
             (uuid : Outcome string),
         local w = st ->
         currentUser w <> None ->
         count is_failure_toast
               (events (JobProvider.addComment decodeToken w jobId text now_id now_ts
                                               resp uuid now)) <> 0 ->
         exists e, uuid = Rejected e /\ transport_failure resp = true).
Proof.
  split; [| split].
  - intros resp id Hfail Huuid g.
    exists (jobService.local_comment decodeToken st jobId text id now).
    assert (Hout : outcome g
                   = Resolved (jobService.local_comment decodeToken st jobId text id now)).
    { subst g. unfold jobService.addComment.
      destruct resp as [e | msg | c]; try discriminate;
        destruct (cachedJobs st); reflexivity. }
    split; [exact Hout |].
    split; [reflexivity |].
    split; [reflexivity |].
    split; [apply is_uuid_not_temporary; exact Huuid |].
    intros snapshot Hcache.
    split; [| split].
    + subst g. unfold jobService.addComment.
      destruct resp as [e | msg | c]; try discriminate;
        rewrite Hcache; simpl; auto.
    + apply cache_merge_pointwise.
    + intros Hquota. subst g. unfold jobService.addComment.
      destruct resp as [e | msg | c]; try discriminate;
        rewrite Hcache; simpl; apply trySetCachedJobs_accepted; exact Hquota.
  - intros resp uuid e H.
    destruct (addComment_rejects_only_without_uuid st jobId text resp uuid now e H)
      as (Hu & Hr & _).
    auto.
  - intros w now_id now_ts resp uuid Hlocal Huser Htoast.
    unfold JobProvider.addComment in Htoast.
    destruct (currentUser w) as [user |]; [| contradiction].
    simpl in Htoast. unfold JobProvider.addComment_settle in Htoast.
    simpl in Htoast. rewrite Hlocal in Htoast.
    destruct (outcome (jobService.addComment decodeToken st jobId text resp uuid now))
      as [c | e] eqn:Hout.
    + exfalso. apply Htoast. simpl.
      unfold jobService.addComment in *.
      destruct resp as [e | msg | c']; destruct uuid as [id | e'];
        try destruct (cachedJobs st); simpl in *; try discriminate; reflexivity.
    + exists e.
      destruct (addComment_rejects_only_without_uuid st jobId text resp uuid now e Hout)
        as (Hu & Hr & _).
      auto.
Qed.

End FallbackFacts.

(** An offline submission with one job cached: the gateway resolves with the
    local comment and the cache receives it.  The same submission when
    [uuidv4()] throws: the gateway rejects, and this is the only way the
    provider comes to report a failure. *)
Lemma addComment_gateway_falls_back_locally_witness :
  let st := mkStorage None (Some [Sample.A]) false in
  let g := jobService.addComment Sample.noToken st "A" "hello" Sample.offline
                                 (Resolved Sample.uuid0) Sample.t0 in
  let noRandom := Js.Error "crypto.getRandomValues() not supported" in
  (exists c,
      outcome g = Resolved c
      /\ comment_text c = "hello"
      /\ comment_id c = Sample.uuid0
      /\ isTemporary (comment_id c) = false
      /\ cachedJobs (storage g) = Some [with_comments Sample.A (Some [c])])
  /\ outcome (jobService.addComment Sample.noToken st "A" "hello" Sample.offline
                                    (Rejected noRandom) Sample.t0)
     = Rejected noRandom
  /\ exists e, Rejected (A := string) noRandom = Rejected e
               /\ transport_failure (Sample.offline (A := CommentType)) = true.
Proof.
  cbv zeta.
  destruct (addComment_gateway_falls_back_locally
              Sample.noToken (mkStorage None (Some [Sample.A]) false) "A" "hello" Sample.t0)
    as (Hfall & Hrej & Hprov).
  split; [| split].
  - destruct (Hfall Sample.offline Sample.uuid0 eq_refl eq_refl)
      as (c & Hout & Htext & Hid & Htemp & Hcache).
    exists c. repeat split; try assumption.
    destruct (Hcache [Sample.A] eq_refl) as (_ & _ & Hslot).
    rewrite (Hslot eq_refl). reflexivity.
  - reflexivity.
  - apply (Hprov (mkWorld (store Sample.world1)
                          (mkStorage None (Some [Sample.A]) false) (Some Sample.alice))
                 Sample.t0 Sample.t0 Sample.offline
                 (Rejected (Js.Error "crypto.getRandomValues() not supported"))).
    + reflexivity.
    + discriminate.
    + vm_compute. discriminate.
Defined.

(** ** Comments in the provider *)

Section CommentFacts.

Variable decodeToken : string -> option UserInfo.

Lemma find_job_map (jobId : string) (F : JobType -> JobType) (js : list JobType) :
  (forall job, job_id (F job) = job_id job) ->
  Js.find (fun job => String.eqb (job_id job) jobId) (map F js)
  = option_map F (Js.find (fun job => String.eqb (job_id job) jobId) js).
Proof.
  intros Hid. unfold Js.find.
  induction js as [| job rest IH]; simpl; [reflexivity |].
  rewrite Hid. destruct (String.eqb (job_id job) jobId); auto.
Qed.

Lemma has_job_find (jobId : string) (js : list JobType) :
  has_job jobId js ->
  exists job, Js.find (fun job => String.eqb (job_id job) jobId) js = Some job
              /\ job_id job = jobId.
Proof.
  intros (job & Hin & Hid). unfold Js.find.
  destruct (find (fun job => String.eqb (job_id job) jobId) js) as [found |] eqn:Hfind.
  - exists found. split; [reflexivity |].
    apply find_some in Hfind. destruct Hfind as [_ Heq].
    apply String.eqb_eq. exact Heq.
  - exfalso. apply (find_none _ _ Hfind) in Hin.
    rewrite Hid, String.eqb_refl in Hin. discriminate.
Qed.

Lemma has_job_map (jobId : string) (F : JobType -> JobType) (js : list JobType) :
  (forall job, job_id (F job) = job_id job) ->
  has_job jobId js -> has_job jobId (map F js).
Proof.
  intros Hid (job & Hin & Hjob).
  exists (F job). split; [apply in_map; exact Hin | rewrite Hid; exact Hjob].
Qed.

Lemma comments_of_append_comment (jobId : string) (temp : CommentType)
      (js : list JobType) :
  has_job jobId js ->
  JobProvider.comments_of jobId (JobProvider.append_comment jobId temp js)
  = JobProvider.comments_of jobId js ++ [temp].
Proof.
  intros Hhas. destruct (has_job_find jobId js Hhas) as (job & Hfind & Hid).
  unfold JobProvider.comments_of, JobProvider.append_comment.
  rewrite find_job_map.
  - rewrite Hfind. simpl. rewrite Hid, String.eqb_refl. reflexivity.
  - intros j. destruct (String.eqb (job_id j) jobId); reflexivity.
Qed.

Lemma comments_of_reconcile_comment (jobId : string) (temp comment : CommentType)
      (js : list JobType) :
  has_job jobId js ->
  JobProvider.comments_of jobId (JobProvider.reconcile_comment jobId temp comment js)
  = filter (fun c => negb (String.eqb (comment_id c) (comment_id temp)))
           (JobProvider.comments_of jobId js) ++ [comment].
Proof.
  intros Hhas. destruct (has_job_find jobId js Hhas) as (job & Hfind & Hid).
  unfold JobProvider.comments_of, JobProvider.reconcile_comment.
  rewrite find_job_map.
  - rewrite Hfind. simpl. rewrite Hid, String.eqb_refl. simpl.
    destruct (job_comments job); reflexivity.
  - intros j. destruct (String.eqb (job_id j) jobId); reflexivity.
Qed.

Lemma has_job_append_comment (jobId : string) (temp : CommentType) (js : list JobType) :
  has_job jobId js -> has_job jobId (JobProvider.append_comment jobId temp js).
Proof.
  apply has_job_map.
  intros j. destruct (String.eqb (job_id j) jobId); reflexivity.
Qed.

Lemma occurrences_app (id : string) (xs ys : list CommentType) :
  occurrences id (xs ++ ys) = occurrences id xs + occurrences id ys.
Proof.
  unfold occurrences. rewrite filter_app, length_app. reflexivity.
Qed.

Lemma occurrences_zero (id : string) (cs : list CommentType) :
  (forall c, In c cs -> comment_id c <> id) -> occurrences id cs = 0.
Proof.
  unfold occurrences. intros H.
  induction cs as [| c rest IH]; simpl; [reflexivity |].
  destruct (String.eqb (comment_id c) id) eqn:Heq.
  - apply String.eqb_eq in Heq. exfalso. apply (H c); simpl; auto.
  - apply IH. intros c' Hin. apply H. simpl; auto.
Qed.

Lemma occurrences_single (id : string) (c : CommentType) :
  occurrences id [c] = if String.eqb (comment_id c) id then 1 else 0.
Proof.
  unfold occurrences. simpl. destruct (String.eqb (comment_id c) id); reflexivity.
Qed.

(** C5, as the code has it. A logged-in user adds a comment to a job of the
    model and the request succeeds with the server's comment, whose
    identifier is not temporary and is new among the comments of the job.
    Then the comment sequence of the job ends up as the former comments,
    without any under the temporary identifier, followed by the server's
    comment: exactly one comment has the server's identifier, none the
    temporary one, and the comment under the server's identifier is the
    server's comment as it was returned, so it has the submitted text when
    the server's comment has it.  The server's comment is returned and the
    operation emits one notification, of success. *)
Theorem addComment_reconciles_with_server_comment
        (w : World) (user : UserType) (jobId text : string) (now_id now_ts : Z)
        (comment : CommentType) (uuid : Outcome string) (now : Z) :
  currentUser w = Some user ->
  has_job jobId (jobs (store w)) ->
  isTemporary (comment_id comment) = false ->
  (forall c, In c (JobProvider.comments_of jobId (jobs (store w))) ->
             comment_id c <> comment_id comment) ->
  let temp := JobProvider.tempComment user jobId text now_id now_ts in
  let r := JobProvider.addComment decodeToken w jobId text now_id now_ts
                                  (Success comment) uuid now in
  let final := JobProvider.comments_of jobId (jobs (store (world r))) in
  returned r = Some comment
  /\ final = filter (fun c => negb (String.eqb (comment_id c) (comment_id temp)))
                    (JobProvider.comments_of jobId (jobs (store w)))
             ++ [comment]
  /\ occurrences (comment_id comment) final = 1
  /\ occurrences (comment_id temp) final = 0
  /\ (forall c, In c final -> comment_id c = comment_id comment -> c = comment)
  /\ (comment_text comment = text ->
      forall c, In c final -> comment_id c = comment_id comment -> comment_text c = text)
  /\ count is_success_toast (events r) = 1
  /\ count is_toast (events r) = 1.
Proof.
  intros Huser Hhas Hserver Hfresh temp r final.
  assert (Hne : comment_id comment <> comment_id temp).
  { intros Heq. rewrite Heq in Hserver. subst temp.
    rewrite tempComment_isTemporary in Hserver. discriminate. }
  assert (Hfilter : forall cs,
             filter (fun c => negb (String.eqb (comment_id c) (comment_id temp)))
                    (cs ++ [temp])
             = filter (fun c => negb (String.eqb (comment_id c) (comment_id temp))) cs).
  { intros cs. rewrite filter_app. simpl. rewrite String.eqb_refl. simpl.
    apply app_nil_r. }
  assert (Hfinal : final
                   = filter (fun c => negb (String.eqb (comment_id c) (comment_id temp)))
                            (JobProvider.comments_of jobId (jobs (store w)))
                     ++ [comment]).
  { subst final r. unfold JobProvider.addComment. rewrite Huser. simpl.
    rewrite comments_of_reconcile_comment by (apply has_job_append_comment; exact Hhas).
    rewrite comments_of_append_comment by exact Hhas.
    rewrite Hfilter. reflexivity. }
  assert (Hkept : forall c,
             In c (filter (fun c => negb (String.eqb (comment_id c) (comment_id temp)))
                          (JobProvider.comments_of jobId (jobs (store w)))) ->
             In c (JobProvider.comments_of jobId (jobs (store w)))
             /\ comment_id c <> comment_id temp).
  { intros c Hin. apply filter_In in Hin. destruct Hin as [Hin Hkeep].
    apply negb_true_iff in Hkeep. apply String.eqb_neq in Hkeep. auto. }
  assert (Hsame : forall c, In c final -> comment_id c = comment_id comment -> c = comment).
  { intros c Hin Hid. rewrite Hfinal in Hin.
    apply in_app_or in Hin. destruct Hin as [Hin | [<- | []]]; [| reflexivity].
    exfalso. apply (Hfresh c); [apply Hkept, Hin | exact Hid]. }
  split; [| split; [| split; [| split; [| split; [| split]]]]].
  - subst r. unfold JobProvider.addComment. rewrite Huser. reflexivity.
  - exact Hfinal.
  - rewrite Hfinal, occurrences_app.
    rewrite occurrences_zero by (intros c Hin; apply Hfresh, Hkept, Hin).
    rewrite occurrences_single, String.eqb_refl. reflexivity.
  - rewrite Hfinal, occurrences_app.
    rewrite occurrences_zero by (intros c Hin; apply Hkept, Hin).
    rewrite occurrences_single.
    apply String.eqb_neq in Hne. rewrite Hne. reflexivity.
  - exact Hsame.
  - intros Htext c Hin Hid. rewrite (Hsame c Hin Hid). exact Htext.
  - subst r. unfold JobProvider.addComment. rewrite Huser. split; reflexivity.
Qed.

End CommentFacts.

(** Alice comments on job [A]; the server stores the comment as [c-17]. *)
Lemma addComment_reconciles_with_server_comment_witness :
  let r := JobProvider.addComment Sample.noToken Sample.world1 "A" "hello"
                                  Sample.t0 Sample.t0
                                  (Success (Sample.comment "c-17" "hello"))
                                  (Resolved Sample.uuid0) Sample.t0 in
  JobProvider.comments_of "A" (jobs (store Sample.world1)) = []
  /\ JobProvider.comments_of "A" (jobs (store (world r)))
     = [Sample.comment "c-17" "hello"]
  /\ occurrences "c-17" (JobProvider.comments_of "A" (jobs (store (world r)))) = 1
  /\ occurrences "temp-1700000001000"
                 (JobProvider.comments_of "A" (jobs (store (world r)))) = 0.
Proof.
  cbv zeta. split; [reflexivity |].
  assert (Hhas : has_job "A" (jobs (store Sample.world1))).
  { exists (jobService.ensure_comments Sample.A). split; [left |]; reflexivity. }
  destruct (addComment_reconciles_with_server_comment
              Sample.noToken Sample.world1 Sample.alice "A" "hello" Sample.t0 Sample.t0
              (Sample.comment "c-17" "hello") (Resolved Sample.uuid0) Sample.t0
              eq_refl Hhas eq_refl (fun c (H : In c []) => False_ind _ H))
    as (_ & Hfinal & Hone & Hzero & _).
  split; [rewrite Hfinal; reflexivity |].
  split; [exact Hone | exact Hzero].
Defined.

(** The claim C5 taken for every job identifier, every text and every
    comment the server may return.  With Alice logged in and the request
    succeeding each time: a comment for a job that is not in the model ends
    up in no comment sequence, although its success is notified; a server
    comment under an identifier the job already holds ends up twice under
    that identifier; and a server comment whose text is not the submitted
    one (here trimmed) is shown with the server's text. *)
Lemma addComment_success_needs_conditions :
  let unknown := JobProvider.addComment Sample.noToken Sample.world1 "Z" "hello"
                                        Sample.t0 Sample.t0
                                        (Success (Sample.comment "c-17" "hello"))
                                        (Resolved Sample.uuid0) Sample.t0 in
  let first := JobProvider.addComment Sample.noToken Sample.world1 "A" "hello"
                                      Sample.t0 Sample.t0
                                      (Success (Sample.comment "c-17" "hello"))
                                      (Resolved Sample.uuid0) Sample.t0 in
  let repeated := JobProvider.addComment Sample.noToken (world first) "A" "hello"
                                         (Sample.t0 + 1) (Sample.t0 + 1)
                                         (Success (Sample.comment "c-17" "hello"))
                                         (Resolved Sample.uuid0) (Sample.t0 + 1) in
  let trimmed := JobProvider.addComment Sample.noToken Sample.world1 "A" " hello "
                                        Sample.t0 Sample.t0
                                        (Success (Sample.comment "c-17" "hello"))
                                        (Resolved Sample.uuid0) Sample.t0 in
  (occurrences "c-17" (JobProvider.comments_of "Z" (jobs (store (world unknown)))) = 0
   /\ count is_success_toast (events unknown) = 1)
  /\ occurrences "c-17" (JobProvider.comments_of "A" (jobs (store (world repeated)))) = 2
  /\ (map comment_text (JobProvider.comments_of "A" (jobs (store (world trimmed))))
      = ["hello"]
      /\ "hello" <> " hello ").
Proof.
  cbv zeta. repeat split; try reflexivity. discriminate.
Qed.

(** ** When the gateway call of [addComment] does not succeed *)

Section RejectionFacts.

Variable decodeToken : string -> option UserInfo.

(** The [catch] of the provider's [addComment], which keeps the temporary
    comment "para la UX" and says that the comment is shown locally only: a
    logged-in user adds a comment to a job of the model and the gateway's
    [addComment] itself rejects.  Then the comment sequence of the job is
    the former one followed by the temporary comment, which carries a
    "temp-" identifier and the typed text, and the operation emits exactly
    one notification, a failure. *)
Theorem addComment_keeps_temp_when_gateway_rejects
        (w : World) (user : UserType) (jobId text : string) (now_id now_ts : Z)
        (resp : Response CommentType) (uuid : Outcome string) (now : Z) (e : Js.error) :
  currentUser w = Some user ->
  has_job jobId (jobs (store w)) ->
  outcome (jobService.addComment decodeToken (local w) jobId text resp uuid now)
  = Rejected e ->
  let temp := JobProvider.tempComment user jobId text now_id now_ts in
  let r := JobProvider.addComment decodeToken w jobId text now_id now_ts resp uuid now in
  let final := JobProvider.comments_of jobId (jobs (store (world r))) in
  final = JobProvider.comments_of jobId (jobs (store w)) ++ [temp]
  /\ In temp final
  /\ isTemporary (comment_id temp) = true
  /\ comment_text temp = text
  /\ count is_failure_toast (events r) = 1
  /\ count is_toast (events r) = 1.
Proof.
  intros Huser Hhas Hout temp r final.
  destruct (addComment_rejects_only_without_uuid
              decodeToken (local w) jobId text resp uuid now e Hout)
    as (_ & _ & Htrace & _).
  assert (Hr : r = mkRun (JobProvider.first_temp (jobs (store w)) jobId)
                         (on_store (setJobs (JobProvider.append_comment jobId temp)) w)
                         ([ERequest POST ("/jobs/" ++ jobId ++ "/comments")]
                          ++ [toast Destructive "Error"
                                    "Error al publicar el comentario en el servidor, pero se muestra localmente."])).
  { subst r. unfold JobProvider.addComment. rewrite Huser. simpl.
    unfold JobProvider.addComment_settle. simpl.
    rewrite Hout, Htrace.
    destruct (addComment_rejects_only_without_uuid
                decodeToken (local w) jobId text resp uuid now e Hout)
      as (_ & _ & _ & Hst).
    rewrite Hst. destruct w; reflexivity. }
  assert (Hfinal : final = JobProvider.comments_of jobId (jobs (store w)) ++ [temp]).
  { subst final. rewrite Hr. simpl. apply comments_of_append_comment. exact Hhas. }
  split; [exact Hfinal |].
  split; [rewrite Hfinal; apply in_or_app; right; left; reflexivity |].
  split; [apply tempComment_isTemporary |].
  split; [reflexivity |].
  rewrite Hr. split; reflexivity.
Qed.

(** What the provider's [addComment] does whenever the request fails (it
    throws, or the server refuses) and [uuidv4()] returns: the gateway
    resolves with its local comment, so the provider takes the branch of a
    success.  The temporary comment is replaced by the local comment, under
    the uuid; no failure is notified and the comment is reported as
    published. *)
Lemma addComment_failed_request_reports_published
      (w : World) (user : UserType) (jobId text : string) (now_id now_ts : Z)
      (resp : Response CommentType) (id : string) (now : Z) :
  currentUser w = Some user ->
  has_job jobId (jobs (store w)) ->
  transport_failure resp = true ->
  let temp := JobProvider.tempComment user jobId text now_id now_ts in
  let fabricated := jobService.local_comment decodeToken (local w) jobId text id now in
  let r := JobProvider.addComment decodeToken w jobId text now_id now_ts
                                  resp (Resolved id) now in
  let final := JobProvider.comments_of jobId (jobs (store (world r))) in
  returned r = Some fabricated
  /\ final = filter (fun c => negb (String.eqb (comment_id c) (comment_id temp)))
                    (JobProvider.comments_of jobId (jobs (store w)))
             ++ [fabricated]
  /\ (is_uuid id = true -> occurrences (comment_id temp) final = 0 /\ ~ In temp final)
  /\ count is_failure_toast (events r) = 0
  /\ filter is_toast (events r)
     = [toast Default "Comentario publicado"
              "Tu comentario ha sido publicado correctamente."].
Proof.
  intros Huser Hhas Hfail temp fabricated r final.
  assert (Hr : returned r = Some fabricated
               /\ jobs (store (world r))
                  = JobProvider.reconcile_comment
                      jobId temp fabricated
                      (JobProvider.append_comment jobId temp (jobs (store w)))
               /\ count is_failure_toast (events r) = 0
               /\ filter is_toast (events r)
                  = [toast Default "Comentario publicado"
                           "Tu comentario ha sido publicado correctamente."]).
  { subst r fabricated temp. unfold JobProvider.addComment. rewrite Huser. simpl.
    unfold JobProvider.addComment_settle, jobService.addComment. simpl.
    destruct resp as [e | m | c]; try discriminate Hfail;
      destruct (cachedJobs (local w)); simpl; repeat split. }
  destruct Hr as (Hret & Hjobs & Hnone & Htoasts).
  assert (Hfinal : final
                   = filter (fun c => negb (String.eqb (comment_id c) (comment_id temp)))
                            (JobProvider.comments_of jobId (jobs (store w)))
                     ++ [fabricated]).
  { subst final. rewrite Hjobs.
    rewrite comments_of_reconcile_comment by (apply has_job_append_comment; exact Hhas).
    rewrite comments_of_append_comment by exact Hhas.
    rewrite filter_app. simpl. rewrite String.eqb_refl. simpl.
    rewrite app_nil_r. reflexivity. }
  split; [exact Hret |]. split; [exact Hfinal |].
  split; [| split; assumption].
  intros Huuid.
  assert (Hne : comment_id fabricated <> comment_id temp).
  { intros Heq. apply is_uuid_not_temporary in Huuid.
    change (comment_id fabricated) with id in Heq. rewrite Heq in Huuid.
    subst temp. rewrite tempComment_isTemporary in Huuid. discriminate Huuid. }
  assert (Hkept : forall c,
             In c (filter (fun c => negb (String.eqb (comment_id c) (comment_id temp)))
                          (JobProvider.comments_of jobId (jobs (store w)))) ->
             comment_id c <> comment_id temp).
  { intros c Hin. apply filter_In in Hin. destruct Hin as [_ Hkeep].
    apply negb_true_iff in Hkeep. apply String.eqb_neq. exact Hkeep. }
  split.
  - rewrite Hfinal, occurrences_app.
    rewrite occurrences_zero by exact Hkept.
    rewrite occurrences_single. apply String.eqb_neq in Hne. rewrite Hne. reflexivity.
  - rewrite Hfinal. intros Hin. apply in_app_or in Hin.
    destruct Hin as [Hin | [Heq | []]].
    + exact (Hkept temp Hin eq_refl).
    + apply Hne. rewrite Heq. reflexivity.
Qed.

(** The store after [deleteComment], by the way the gateway call settled:
    unchanged when it rejected, swept of the comment when it resolved,
    whatever the boolean it resolved with. *)
Lemma deleteComment_store (w : World) (commentId : string) (resp : Response unit) :
  store (world (JobProvider.deleteComment w commentId resp))
  = match resp with
    | Threw _ => store w
    | Refused _ | Success _ => setJobs (JobProvider.sweep_comment commentId) (store w)
    end.
Proof.
  destruct resp as [e | msg | u]; reflexivity.
Qed.

Lemma sweep_comment_removes (commentId : string) (js : list JobType) :
  forall job c, In job (JobProvider.sweep_comment commentId js) ->
                In c (Js.or_nil (job_comments job)) ->
                comment_id c <> commentId.
Proof.
  intros job c Hjob Hc. unfold JobProvider.sweep_comment in Hjob.
  apply in_map_iff in Hjob. destruct Hjob as (job0 & <- & _).
  simpl in Hc. unfold JobProvider.without_comment in Hc.
  destruct (job_comments job0) as [cs |]; simpl in Hc; [| contradiction].
  apply filter_In in Hc. destruct Hc as [_ Hkeep].
  apply negb_true_iff in Hkeep. apply String.eqb_neq. exact Hkeep.
Qed.

(** After any refresh the popular jobs are the first three of the job
    list. *)
Lemma refreshJobs_popular (w : World) (r1 r2 : Response (list JobType)) :
  let s := store (world (JobProvider.refreshJobs w r1 r2)) in
  popularJobs s = Js.slice0 3 (jobs s).
Proof.
  unfold JobProvider.refreshJobs.
  destruct r1 as [e1 | m1 | js1]; simpl;
    destruct (currentUser w) as [user |]; simpl; try reflexivity;
    destruct r2 as [e2 | m2 | js2]; reflexivity.
Qed.

(** After a refresh every job has its comment sequence, provided the cached
    snapshot read on failure has. *)
Lemma refreshJobs_comments_present (w : World) (r1 r2 : Response (list JobType)) :
  comments_present (jobService.cached_or_empty (local w)) ->
  comments_present (jobs (store (world (JobProvider.refreshJobs w r1 r2)))).
Proof.
  intros Hcache. unfold JobProvider.refreshJobs.
  destruct r1 as [e1 | m1 | js1]; simpl;
    destruct (currentUser w) as [user |]; simpl;
    try destruct r2 as [e2 | m2 | js2]; simpl;
    solve [exact Hcache | apply ensure_comments_present].
Qed.

End RejectionFacts.

(** Alice is logged in, job [A] is in the model, the network is down and
    [uuidv4()] throws in the fallback of the gateway. *)
Lemma addComment_keeps_temp_when_gateway_rejects_witness :
  let r := JobProvider.addComment Sample.noToken Sample.world1 "A" "hello"
                                  Sample.t0 Sample.t0 Sample.offline
                                  (Rejected (Js.Error "crypto.getRandomValues() not supported"))
                                  Sample.t0 in
  map comment_id (JobProvider.comments_of "A" (jobs (store (world r))))
  = ["temp-1700000001000"]
  /\ count is_failure_toast (events r) = 1.
Proof.
  cbv zeta.
  assert (Hhas : has_job "A" (jobs (store Sample.world1))).
  { exists (jobService.ensure_comments Sample.A). split; [left |]; reflexivity. }
  destruct (addComment_keeps_temp_when_gateway_rejects
              Sample.noToken Sample.world1 Sample.alice "A" "hello" Sample.t0 Sample.t0
              Sample.offline (Rejected (Js.Error "crypto.getRandomValues() not supported"))
              Sample.t0 (Js.Error "crypto.getRandomValues() not supported")
              eq_refl Hhas eq_refl)
    as (Hfinal & _ & _ & _ & Hone & _).
  split; [rewrite Hfinal; reflexivity | exact Hone].
Defined.

(** C2. The scenario of the claim, run on the code: Alice submits a comment
    while offline.  The request throws, the gateway resolves with a comment
    made locally, and the provider puts it in the place of the temporary one
    and reports a success: no comment under the temporary identifier is
    left, no failure notification is emitted, and the only notification is
    "Comentario publicado". *)
Lemma offline_comment_is_replaced_and_reported_published :
  let temp := JobProvider.tempComment Sample.alice "A" "hello" Sample.t0 Sample.t0 in
  let r := JobProvider.addComment Sample.noToken Sample.world1 "A" "hello"
                                  Sample.t0 Sample.t0 Sample.offline
                                  (Resolved Sample.uuid0) Sample.t0 in
  let final := JobProvider.comments_of "A" (jobs (store (world r))) in
  ~ In temp final
  /\ occurrences (comment_id temp) final = 0
  /\ map comment_id final = [Sample.uuid0]
  /\ count is_failure_toast (events r) = 0
  /\ filter is_toast (events r)
     = [toast Default "Comentario publicado"
              "Tu comentario ha sido publicado correctamente."].
Proof.
  cbv zeta. split; [| repeat split; reflexivity].
  vm_compute. intros [H | []]. discriminate H.
Qed.

(** ** Views after a mutation *)

(** C1. The scenario of the claim, run on the code: the provider holds
    [A; B; C; D] with the popular jobs [A; B; C], the server confirms the
    deletion of [B]; the job list becomes [A; C; D] and the popular jobs are
    still [A; B; C], which is not the first three of the job list. *)
Theorem deleteJob_leaves_popularJobs_stale :
  let before := store Sample.world4 in
  let after := store (JobProvider.run Sample.noToken Sample.world4
                                      [JobProvider.DeleteJob "B" (Success tt)]) in
  map job_id (jobs before) = ["A"; "B"; "C"; "D"]
  /\ map job_id (popularJobs before) = ["A"; "B"; "C"]
  /\ map job_id (jobs after) = ["A"; "C"; "D"]
  /\ map job_id (Js.slice0 3 (jobs after)) = ["A"; "C"; "D"]
  /\ map job_id (popularJobs after) = ["A"; "B"; "C"]
  /\ popularJobs after <> Js.slice0 3 (jobs after).
Proof.
  cbv zeta. repeat split; try reflexivity.
  intros H. apply (f_equal (map job_id)) in H. vm_compute in H. discriminate H.
Qed.

(** C3. A comment added to the job [A] and confirmed by the server is in
    the job list only: the copies of [A] in the user's jobs, in the filtered
    jobs and in the popular jobs keep the empty comment sequence.  The same
    holds once the comment is deleted again after a second one was added:
    the views never saw either.  And a job the server deleted stays in the
    popular jobs. *)
Theorem comment_mutations_leave_views_stale :
  let added := store (JobProvider.run Sample.noToken Sample.world1
                        [JobProvider.AddComment "A" "hello" Sample.t0 Sample.t0
                           (Success (Sample.comment "c-17" "hello"))
                           (Resolved Sample.uuid0) Sample.t0]) in
  let deleted := store (JobProvider.run Sample.noToken Sample.world4
                          [JobProvider.DeleteJob "B" (Success tt)]) in
  (views_agree "u1" (store Sample.world1) /\ views_agree "u1" (store Sample.world4))
  /\ map comment_id (JobProvider.comments_of "A" (jobs added)) = ["c-17"]
  /\ JobProvider.comments_of "A" (userJobs added) = []
  /\ JobProvider.comments_of "A" (filteredJobs added) = []
  /\ JobProvider.comments_of "A" (popularJobs added) = []
  /\ ~ views_agree "u1" added
  /\ ~ has_job "B" (jobs deleted)
  /\ has_job "B" (popularJobs deleted).
Proof.
  cbv zeta. split; [| repeat split; try reflexivity].
  - split; repeat split; reflexivity.
  - intros (_ & H & _). apply (f_equal (JobProvider.comments_of "A")) in H.
    vm_compute in H. discriminate H.
  - intros (job & Hin & Hid). vm_compute in Hin.
    destruct Hin as [<- | [<- | [<- | []]]]; discriminate Hid.
  - exists (jobService.ensure_comments Sample.B). split; [right; left |]; reflexivity.
Qed.

(** C4. The provider holds the job [A] with its (empty) comment sequence;
    the job is updated and the server answers with the updated job without
    a [comments] field.  The answer is put in the job list as it is: the job
    [A] of the model has no comment sequence any more. *)
Theorem updateJob_drops_comment_sequence :
  let before := store Sample.world1 in
  let after := store (JobProvider.run Sample.noToken Sample.world1
                        [JobProvider.UpdateJob "A" Sample.jobData1
                                               (Success (Sample.bare "A"))]) in
  comments_present (jobs before)
  /\ map job_comments (jobs before) = [Some []]
  /\ map job_id (jobs after) = ["A"]
  /\ map job_comments (jobs after) = [None]
  /\ ~ comments_present (jobs after).
Proof.
  cbv zeta. repeat split; try reflexivity.
  - repeat constructor. discriminate.
  - intros H. vm_compute in H. inversion H as [| job rest Hjob _]. apply Hjob. reflexivity.
Qed.

(** C6. The job [A] holds the comment [c-17]; [deleteComment "c-17"] is
    called and the server answers without success, so the gateway resolves
    with [false].  The provider removes the comment all the same and reports
    that it was deleted.  (When the request throws, the store is left as it
    was.) *)
Theorem deleteComment_removes_without_confirmation :
  let w := JobProvider.run Sample.noToken Sample.world1
             [JobProvider.AddComment "A" "hello" Sample.t0 Sample.t0
                (Success (Sample.comment "c-17" "hello"))
                (Resolved Sample.uuid0) Sample.t0] in
  let refused := JobProvider.deleteComment w "c-17" (Refused (Some "Forbidden")) in
  let threw := JobProvider.deleteComment w "c-17" Sample.offline in
  map comment_id (JobProvider.comments_of "A" (jobs (store w))) = ["c-17"]
  /\ outcome (jobService.deleteComment (local w) "c-17" (Refused (Some "Forbidden")))
     = Resolved false
  /\ JobProvider.comments_of "A" (jobs (store (world refused))) = []
  /\ jobs (store (world refused)) <> jobs (store w)
  /\ filter is_toast (events refused)
     = [toast Default "Comentario eliminado"
              "El comentario ha sido eliminado correctamente."]
  /\ store (world threw) = store w.
Proof.
  cbv zeta. repeat split; try reflexivity.
  intros H. apply (f_equal (JobProvider.comments_of "A")) in H.
  vm_compute in H. discriminate H.
Qed.

(** * Further properties of the gateway *)

Section GatewayMore.

Variable decodeToken : string -> option UserInfo.

(** X1. No gateway function retries: every call issues exactly one request,
    whatever the answer, except [createJob] with incomplete data, which
    issues none. *)
Theorem gateway_issues_one_request (st : Storage) :
  (forall resp, count is_request (trace (jobService.getAllJobs st resp)) = 1)
  /\ (forall id resp, count is_request (trace (jobService.getJobById st id resp)) = 1)
  /\ (forall userId resp,
         count is_request (trace (jobService.getJobsByUser st userId resp)) = 1)
  /\ (forall jobData resp,
         count is_request (trace (jobService.createJob st jobData resp))
         = if jobService.missing_fields jobData then 0 else 1)
  /\ (forall id jobData resp,
         count is_request (trace (jobService.updateJob st id jobData resp)) = 1)
  /\ (forall id resp, count is_request (trace (jobService.deleteJob st id resp)) = 1)
  /\ (forall jobId text resp uuid now,
         count is_request
               (trace (jobService.addComment decodeToken st jobId text resp uuid now)) = 1)
  /\ (forall commentId text resp uuid now,
         count is_request
               (trace (jobService.addReply decodeToken st commentId text resp uuid now)) = 1)
  /\ (forall commentId resp,
         count is_request (trace (jobService.deleteComment st commentId resp)) = 1)
  /\ (forall id resp, count is_request (trace (userService.getUserById st id resp)) = 1).
Proof.
  repeat split.
  - intros [e | m | js]; reflexivity.
  - intros id [e | m | j]; reflexivity.
  - intros userId [e | m | js]; reflexivity.
  - intros jobData resp. unfold jobService.createJob.
    destruct (jobService.missing_fields jobData); [reflexivity |].
    destruct resp as [e | m | j]; reflexivity.
  - intros id jobData [e | m | j]; reflexivity.
  - intros id [e | m | u]; reflexivity.
  - intros jobId text resp uuid now. unfold jobService.addComment.
    destruct resp as [e | m | c]; destruct uuid as [id | e'];
      try destruct (cachedJobs st); reflexivity.
  - intros commentId text resp uuid now.
    destruct resp as [e | m | r]; destruct uuid as [id | e']; reflexivity.
  - intros commentId [e | m | u]; reflexivity.
  - intros id [e | m | u]; reflexivity.
Qed.

Lemma ensure_comments_idempotent (job : JobType) :
  jobService.ensure_comments (jobService.ensure_comments job)
  = jobService.ensure_comments job.
Proof. reflexivity. Qed.

Lemma ensure_comments_keeps (job : JobType) :
  job_comments job <> None -> jobService.ensure_comments job = job.
Proof.
  destruct job as [i t d c b s u ts [cs |]]; simpl; [reflexivity | congruence].
Qed.

(** X2. A successful fetch resolves with as many jobs as the server sent,
    in the same order and under the same identifiers, each with a comment
    sequence: a job sent with its comments is returned as it was sent, a job
    sent without them gets the empty sequence.  Fetching what was returned
    changes nothing more. *)
Theorem getAllJobs_normalises (st : Storage) (fetched : list JobType) :
  exists received,
    outcome (jobService.getAllJobs st (Success fetched)) = Resolved received
    /\ map job_id received = map job_id fetched
    /\ comments_present received
    /\ Forall2 (fun job job' =>
                  match job_comments job with
                  | Some _ => job' = job
                  | None => job_comments job' = Some []
                  end)
               fetched received
    /\ outcome (jobService.getAllJobs st (Success received)) = Resolved received.
Proof.
  exists (map jobService.ensure_comments fetched).
  split; [reflexivity |].
  split; [rewrite map_map; reflexivity |].
  split; [apply ensure_comments_present |].
  split.
  - induction fetched as [| job rest IH]; simpl; constructor; auto.
    destruct (job_comments job) eqn:Hc.
    + apply ensure_comments_keeps. congruence.
    + simpl. rewrite Hc. reflexivity.
  - simpl. rewrite map_map. reflexivity.
Qed.

(** X3. [getJobsByUser] never rejects, and resolves with exactly the jobs
    [getAllJobs] resolves with that the user owns, in the same order: the
    result is what is left of that list when the jobs of other users are
    taken out.  It leaves the storage as [getAllJobs] does. *)
Theorem getJobsByUser_owned (st : Storage) (userId : string)
        (resp : Response (list JobType)) :
  exists all mine,
    outcome (jobService.getAllJobs st resp) = Resolved all
    /\ outcome (jobService.getJobsByUser st userId resp) = Resolved mine
    /\ mine = filter (fun job => String.eqb (job_userId job) userId) all
    /\ (forall job, In job mine <-> In job all /\ job_userId job = userId)
    /\ (forall before job after,
           all = before ++ job :: after -> job_userId job = userId ->
           exists before' after',
             mine = before' ++ job :: after'
             /\ before' = filter (fun j => String.eqb (job_userId j) userId) before
             /\ after' = filter (fun j => String.eqb (job_userId j) userId) after)
    /\ List.length mine <= List.length all
    /\ storage (jobService.getJobsByUser st userId resp)
       = storage (jobService.getAllJobs st resp).
Proof.
  clear decodeToken.
  destruct (getAllJobs_resolves st resp) as [all Hall].
  exists all, (filter (fun job => String.eqb (job_userId job) userId) all).
  unfold jobService.getJobsByUser. rewrite Hall. simpl.
  split; [reflexivity |]. split; [reflexivity |]. split; [reflexivity |].
  split; [| split; [| split; [apply filter_length_le | reflexivity]]].
  - intros job. rewrite filter_In, String.eqb_eq. tauto.
  - intros before job after -> Hown.
    exists (filter (fun j => String.eqb (job_userId j) userId) before),
      (filter (fun j => String.eqb (job_userId j) userId) after).
    rewrite filter_app. simpl.
    apply String.eqb_eq in Hown. rewrite Hown. auto.
Qed.

(** X4. [createJob] resolves exactly when the data is complete and the
    server answers with success, and then with the server's job and one
    success notification; in every other case it rejects, shows at least one
    failure notification and no success notification.  It never touches the
    storage. *)
Theorem createJob_resolves_only_on_success
        (st : Storage) (jobData : JobData) (resp : Response JobType) :
  let g := jobService.createJob st jobData resp in
  (forall job, outcome g = Resolved job <->
               jobService.missing_fields jobData = false /\ resp = Success job)
  /\ (forall job, outcome g = Resolved job ->
                  count is_success_toast (trace g) = 1
                  /\ count is_failure_toast (trace g) = 0)
  /\ (forall e, outcome g = Rejected e ->
                1 <= count is_failure_toast (trace g)
                /\ count is_success_toast (trace g) = 0)
  /\ storage g = st.
Proof.
  intros g. subst g. unfold jobService.createJob.
  destruct (jobService.missing_fields jobData) eqn:Hm;
    [| destruct resp as [e | m | j]]; simpl;
    (split; [| split; [| split; [| reflexivity]]]).
  all: try (intros job; split; [discriminate | intros [? ?]; discriminate]).
  all: try (intros ? H; discriminate H).
  all: try (intros e' _; split; [cbv; lia | reflexivity]).
  intros job. split.
  - intros H. injection H as ->. split; reflexivity.
  - intros [_ H]. injection H as ->. reflexivity.
Qed.

Lemma createJob_resolves_only_on_success_witness :
  outcome (jobService.createJob Sample.storage0 Sample.jobData1 (Success (Sample.job "N")))
  = Resolved (Sample.job "N")
  /\ count is_success_toast
           (trace (jobService.createJob Sample.storage0 Sample.jobData1
                                        (Success (Sample.job "N")))) = 1
  /\ 1 <= count is_failure_toast
                (trace (jobService.createJob Sample.storage0 Sample.jobData1
                                             (Refused (Some "Presupuesto no válido")))).
Proof.
  pose proof (createJob_resolves_only_on_success
                Sample.storage0 Sample.jobData1 (Success (Sample.job "N"))) as Hok.
  pose proof (createJob_resolves_only_on_success
                Sample.storage0 Sample.jobData1 (Refused (Some "Presupuesto no válido")))
    as Hno.
  cbv zeta in Hok, Hno.
  destruct Hok as (Hiff & Hone & _ & _).
  destruct Hno as (_ & _ & Hfail & _).
  assert (Hres : outcome (jobService.createJob Sample.storage0 Sample.jobData1
                                               (Success (Sample.job "N")))
                 = Resolved (Sample.job "N")).
  { apply Hiff. split; reflexivity. }
  split; [exact Hres |].
  split; [exact (proj1 (Hone _ Hres)) |].
  exact (proj1 (Hfail (Js.Error "Presupuesto no válido") eq_refl)).
Defined.

End GatewayMore.

Section FallbackMore.

Variable decodeToken : string -> option UserInfo.

(** X5. The gateway's [addReply] never touches the storage and never writes
    the cache, so a reply made in its fallback is in no snapshot.  It
    rejects only when the request failed and [uuidv4()] threw; when the
    request fails and [uuidv4()] returns, it resolves with a reply made
    locally under the uuid, for the comment and with the text given. *)
Theorem addReply_gateway_falls_back_without_cache
        (st : Storage) (commentId text : string) (now : Z) :
  (forall resp uuid,
      let g := jobService.addReply decodeToken st commentId text resp uuid now in
      storage g = st /\ forall v, ~ In (ESetCachedJobs v) (trace g))
  /\ (forall resp uuid e,
         outcome (jobService.addReply decodeToken st commentId text resp uuid now)
         = Rejected e ->
         uuid = Rejected e /\ transport_failure resp = true)
  /\ (forall resp id,
         transport_failure resp = true ->
         exists reply,
           outcome (jobService.addReply decodeToken st commentId text resp
                                        (Resolved id) now) = Resolved reply
           /\ reply_id reply = id
           /\ reply_commentId reply = commentId
           /\ reply_text reply = text
           /\ reply_content reply = Some text
           /\ reply_timestamp reply = now).
Proof.
  split; [| split].
  - intros resp uuid g. subst g.
    destruct resp as [e | m | r]; destruct uuid as [id | e']; simpl;
      (split; [reflexivity | intros v [H | []]; discriminate H]).
  - intros resp uuid e.
    destruct resp as [e0 | m | r]; destruct uuid as [id | e']; simpl;
      intros H; try discriminate H; injection H as ->; auto.
  - intros resp id Hfail.
    exists (jobService.local_reply decodeToken st commentId text id now).
    destruct resp as [e | m | r]; try discriminate Hfail; repeat split.
Qed.

Lemma cache_merge_ids (jobId : string) (c : CommentType) (snapshot : list JobType) :
  map job_id (jobService.cache_merge jobId c snapshot) = map job_id snapshot.
Proof.
  unfold jobService.cache_merge. rewrite map_map. apply map_ext.
  intros job. destruct (String.eqb (job_id job) jobId); reflexivity.
Qed.

Lemma cache_merge_unknown (jobId : string) (c : CommentType) (snapshot : list JobType) :
  ~ has_job jobId snapshot -> jobService.cache_merge jobId c snapshot = snapshot.
Proof.
  intros Hno. unfold jobService.cache_merge.
  rewrite <- (map_id snapshot) at 2. apply map_ext_in.
  intros job Hin. destruct (String.eqb_spec (job_id job) jobId) as [Heq | Hne].
  - exfalso. apply Hno. exists job. auto.
  - reflexivity.
Qed.

(** X6. The fallback of the gateway's [addComment] is careful with the
    cache: it creates no snapshot when none is cached; it leaves the
    snapshot as it is when no cached job has the identifier; when the store
    refuses the write the comment is still returned and the storage is as it
    was; and in every case the cached jobs keep their number, order and
    identifiers.  A successful request never touches the storage. *)
Theorem addComment_gateway_cache_edges
        (st : Storage) (jobId text id : string) (now : Z) (resp : Response CommentType) :
  let g := jobService.addComment decodeToken st jobId text resp (Resolved id) now in
  (cachedJobs st = None -> storage g = st)
  /\ (forall snapshot, cachedJobs st = Some snapshot -> ~ has_job jobId snapshot ->
                       cachedJobs (storage g) = Some snapshot)
  /\ (quotaExceeded st = true ->
      storage g = st /\ exists c, outcome g = Resolved c)
  /\ (transport_failure resp = false -> storage g = st)
  /\ option_map (map job_id) (cachedJobs (storage g))
     = option_map (map job_id) (cachedJobs st)
  /\ token (storage g) = token st.
Proof.
  intros g. subst g. unfold jobService.addComment.
  destruct resp as [e | m | c]; simpl.
  3: solve [repeat split; eauto].
  all: destruct (cachedJobs st) as [snapshot |] eqn:Hcache; simpl.
  2, 4: solve [repeat split; eauto; try discriminate; rewrite Hcache; reflexivity].
  all: split; [discriminate |].
  all: split; [intros s Hs Hno; injection Hs as <-;
               rewrite cache_merge_unknown by exact Hno;
               unfold trySetCachedJobs, setCachedJobs;
               destruct (quotaExceeded st); simpl; [exact Hcache | reflexivity] |].
  all: split; [intros Hq; unfold trySetCachedJobs, setCachedJobs; rewrite Hq; eauto |].
  all: split; [discriminate |].
  all: unfold trySetCachedJobs, setCachedJobs;
    destruct (quotaExceeded st); simpl; rewrite ?Hcache; simpl;
    rewrite ?cache_merge_ids; split; reflexivity.
Qed.

(** X7. Who a comment made in the fallback is attributed to: without a
    usable token (none stored, an empty one, or one that cannot be decoded)
    the author is "unknown" with the name "Usuario" and no photo; with a
    decoded token the author is its [userId], or its [id] when the [userId]
    is missing or empty. *)
Theorem local_comment_attribution
        (st : Storage) (jobId text id : string) (now : Z) :
  let c := jobService.local_comment decodeToken st jobId text id now in
  (jobService.userInfo_of decodeToken st = None ->
   comment_userId c = "unknown" /\ comment_userName c = "Usuario"
   /\ comment_userPhoto c = "")
  /\ (Js.truthy (token st) = false -> jobService.userInfo_of decodeToken st = None)
  /\ (forall t, token st = Some t -> decodeToken t = None ->
                jobService.userInfo_of decodeToken st = None)
  /\ (forall info u,
         jobService.userInfo_of decodeToken st = Some info ->
         info_userId info = Some u -> u <> "" ->
         comment_userId c = u)
  /\ (forall info i,
         jobService.userInfo_of decodeToken st = Some info ->
         Js.truthy (info_userId info) = false ->
         info_id info = Some i -> i <> "" ->
         comment_userId c = i)
  /\ comment_jobId c = jobId /\ comment_replies c = Some [].
Proof.
  intros c. subst c. unfold jobService.local_comment.
  split; [| split; [| split; [| split; [| split]]]].
  - intros ->. simpl. auto.
  - unfold jobService.userInfo_of. intros ->. reflexivity.
  - unfold jobService.userInfo_of. intros t -> Hdec.
    destruct (Js.truthy (Some t)); [exact Hdec | reflexivity].
  - intros info u -> Hu Hne. simpl. unfold Js.or_else. rewrite Hu. simpl.
    apply String.eqb_neq in Hne. rewrite Hne. simpl. rewrite Hne. reflexivity.
  - intros info i -> Hu Hi Hne. simpl. unfold Js.or_else. rewrite Hu, Hi. simpl.
    apply String.eqb_neq in Hne. rewrite Hne. reflexivity.
  - split; reflexivity.
Qed.

End FallbackMore.

Lemma addReply_gateway_falls_back_without_cache_witness :
  exists reply,
    outcome (jobService.addReply Sample.noToken Sample.storage0 "c-17" "thanks"
                                 Sample.offline (Resolved Sample.uuid0) Sample.t0)
    = Resolved reply
    /\ reply_id reply = Sample.uuid0
    /\ reply_text reply = "thanks".
Proof.
  destruct (addReply_gateway_falls_back_without_cache
              Sample.noToken Sample.storage0 "c-17" "thanks" Sample.t0)
    as (_ & _ & Hfall).
  destruct (Hfall Sample.offline Sample.uuid0 eq_refl)
    as (reply & Hout & Hid & _ & Htext & _).
  exists reply. auto.
Defined.

Lemma addComment_gateway_cache_edges_witness :
  let full := mkStorage None (Some [Sample.A]) true in
  storage (jobService.addComment Sample.noToken Sample.storage0 "A" "hello"
                                 Sample.offline (Resolved Sample.uuid0) Sample.t0)
  = Sample.storage0
  /\ storage (jobService.addComment Sample.noToken full "A" "hello"
                                    Sample.offline (Resolved Sample.uuid0) Sample.t0)
     = full
  /\ cachedJobs (storage (jobService.addComment
                            Sample.noToken (mkStorage None (Some [Sample.A]) false)
                            "Z" "hello" Sample.offline (Resolved Sample.uuid0) Sample.t0))
     = Some [Sample.A].
Proof.
  cbv zeta. split; [| split].
  - pose proof (addComment_gateway_cache_edges
                  Sample.noToken Sample.storage0 "A" "hello" Sample.uuid0 Sample.t0
                  Sample.offline) as H.
    cbv zeta in H. destruct H as (Hnone & _). apply Hnone. reflexivity.
  - pose proof (addComment_gateway_cache_edges
                  Sample.noToken (mkStorage None (Some [Sample.A]) true) "A" "hello"
                  Sample.uuid0 Sample.t0 Sample.offline) as H.
    cbv zeta in H. destruct H as (_ & _ & Hquota & _). apply Hquota. reflexivity.
  - pose proof (addComment_gateway_cache_edges
                  Sample.noToken (mkStorage None (Some [Sample.A]) false) "Z" "hello"
                  Sample.uuid0 Sample.t0 Sample.offline) as H.
    cbv zeta in H. destruct H as (_ & Hunknown & _).
    apply Hunknown; [reflexivity |].
    intros (job & [<- | []] & Hid). discriminate Hid.
Defined.

(** A token whose payload has no [userId] but an [id]. *)
Lemma local_comment_attribution_witness :
  let decode := fun _ : string => Some (mkUserInfo None (Some "u7") (Some "Ana") None) in
  let st := mkStorage (Some "h.p.s") None false in
  comment_userId (jobService.local_comment decode st "A" "hello" Sample.uuid0 Sample.t0)
  = "u7"
  /\ comment_userId (jobService.local_comment Sample.noToken st "A" "hello"
                                              Sample.uuid0 Sample.t0) = "unknown".
Proof.
  cbv zeta. split.
  - apply (local_comment_attribution
             (fun _ => Some (mkUserInfo None (Some "u7") (Some "Ana") None))
             (mkStorage (Some "h.p.s") None false) "A" "hello" Sample.uuid0 Sample.t0)
      with (info := mkUserInfo None (Some "u7") (Some "Ana") None);
      try reflexivity.
    discriminate.
  - apply (local_comment_attribution
             Sample.noToken (mkStorage (Some "h.p.s") None false)
             "A" "hello" Sample.uuid0 Sample.t0).
    reflexivity.
Defined.

(** * Further properties of the provider *)

Section ProviderMore.

Variable decodeToken : string -> option UserInfo.

Lemma slice0_length {A : Type} (n : nat) (xs : list A) : List.length (Js.slice0 n xs) <= n.
Proof. unfold Js.slice0. apply firstn_le_length. Qed.

(** X8. Whatever the two fetches of [refreshJobs] meet, afterwards the
    popular jobs are the first three jobs at most, the filtered jobs are the
    job list, and [loading] is off; with a user logged in the saved jobs are
    empty and every job of the user's jobs is owned by the user, without one
    the user's jobs are as before.  The notification "Error al cargar los
    trabajos." is never shown: nothing the refresh awaits can reject. *)
Theorem refreshJobs_settles (w : World) (r1 r2 : Response (list JobType)) :
  let r := JobProvider.refreshJobs w r1 r2 in
  let s := store (world r) in
  popularJobs s = Js.slice0 3 (jobs s)
  /\ List.length (popularJobs s) <= 3
  /\ filteredJobs s = jobs s
  /\ loading s = false
  /\ (forall user, currentUser w = Some user ->
                   savedJobs s = []
                   /\ Forall (fun job => job_userId job = user_id user) (userJobs s))
  /\ (currentUser w = None ->
      userJobs s = userJobs (store w) /\ savedJobs s = savedJobs (store w))
  /\ ~ In (toast Destructive "Error" "Error al cargar los trabajos.") (events r)
  /\ currentUser (world r) = currentUser w.
Proof.
  intros r s.
  assert (Hpop : popularJobs s = Js.slice0 3 (jobs s))
    by (apply refreshJobs_popular).
  split; [exact Hpop |].
  split; [rewrite Hpop; apply slice0_length |].
  subst s r. unfold JobProvider.refreshJobs.
  destruct r1 as [e1 | m1 | js1]; simpl;
    destruct (currentUser w) as [user |] eqn:Huser; simpl;
    try (destruct r2 as [e2 | m2 | js2]; simpl).
  all: repeat split; try reflexivity; try discriminate.
  all: try exact Huser.
  all: try match goal with
           | H : Some _ = Some _ |- Forall _ _ =>
               injection H as <-;
               apply Forall_forall; intros job Hin; apply filter_In in Hin;
               destruct Hin as [_ Heq]; apply String.eqb_eq; exact Heq
           end.
  all: intros Hin; unfold jobService.describe in Hin; simpl in Hin;
    repeat (destruct Hin as [Hin | Hin]; [discriminate Hin |]); exact Hin.
Qed.

Lemma refreshJobs_settles_witness :
  savedJobs (store Sample.world4) = []
  /\ Forall (fun job => job_userId job = "u1") (userJobs (store Sample.world4))
  /\ List.length (popularJobs (store Sample.world4)) <= 3.
Proof.
  pose proof (refreshJobs_settles
                Sample.world0 (Success [Sample.A; Sample.B; Sample.C; Sample.D])
                (Success [Sample.A; Sample.B; Sample.C; Sample.D])) as H.
  cbv zeta in H. destruct H as (_ & Hlen & _ & _ & Huser & _).
  destruct (Huser Sample.alice eq_refl) as [Hsaved Hown].
  split; [exact Hsaved |]. split; [exact Hown | exact Hlen].
Defined.

(** X9. When both fetches of [refreshJobs] get the same answer, the views
    agree with the job list: the popular jobs are its first three, the
    filtered jobs are all of it, the user's jobs are those the user owns.
    When that answer is a failure, the job list is the cached snapshot, or
    empty without one, and the storage is left as it was. *)
Theorem refreshJobs_views_agree
        (w : World) (user : UserType) (resp : Response (list JobType)) :
  currentUser w = Some user ->
  let s := store (world (JobProvider.refreshJobs w resp resp)) in
  views_agree (user_id user) s
  /\ (transport_failure resp = true ->
      jobs s = jobService.cached_or_empty (local w)
      /\ local (world (JobProvider.refreshJobs w resp resp)) = local w).
Proof.
  intros Huser s. subst s. unfold JobProvider.refreshJobs. rewrite Huser.
  destruct resp as [e | m | js]; simpl.
  - split; [repeat split | intros _; split; destruct w; reflexivity].
  - split; [repeat split | intros _; split; destruct w; reflexivity].
  - split; [repeat split | discriminate].
Qed.

Lemma refreshJobs_views_agree_witness :
  views_agree "u1" (store (world (JobProvider.refreshJobs
                                    (mkWorld initialStore
                                             (mkStorage None (Some [Sample.A]) false)
                                             (Some Sample.alice))
                                    Sample.offline Sample.offline)))
  /\ jobs (store (world (JobProvider.refreshJobs
                           (mkWorld initialStore
                                    (mkStorage None (Some [Sample.A]) false)
                                    (Some Sample.alice))
                           Sample.offline Sample.offline))) = [Sample.A].
Proof.
  pose proof (refreshJobs_views_agree
                (mkWorld initialStore (mkStorage None (Some [Sample.A]) false)
                         (Some Sample.alice))
                Sample.alice Sample.offline eq_refl) as H.
  cbv zeta in H. destruct H as [Hviews Hoff].
  split; [exact Hviews |]. exact (proj1 (Hoff eq_refl)).
Defined.

End ProviderMore.

Section JobMutations.

Variable decodeToken : string -> option UserInfo.

(** X10. An update the server does not accept changes nothing: when the
    request throws or is refused, the store and the storage are as before
    and [updateJob] returns [null]; one request was made, no success is
    notified, and the failure is notified once when refused and twice
    (by the gateway and by the provider) when the request threw. *)
Theorem updateJob_failure_rolls_back
        (w : World) (jobId : string) (jobData : JobData) (resp : Response JobType) :
  transport_failure resp = true ->
  let r := JobProvider.updateJob w jobId jobData resp in
  world r = w
  /\ returned r = None
  /\ count is_request (events r) = 1
  /\ count is_success_toast (events r) = 0
  /\ count is_failure_toast (events r)
     = match resp with Threw _ => 2 | _ => 1 end.
Proof.
  intros Hfail r. subst r.
  destruct resp as [e | m | j]; try discriminate Hfail;
    destruct w; repeat split.
Qed.

Lemma updateJob_failure_rolls_back_witness :
  world (JobProvider.updateJob Sample.world1 "A" Sample.jobData1 Sample.offline)
  = Sample.world1
  /\ count is_failure_toast
           (events (JobProvider.updateJob Sample.world1 "A" Sample.jobData1
                                          Sample.offline)) = 2.
Proof.
  pose proof (updateJob_failure_rolls_back
                Sample.world1 "A" Sample.jobData1 Sample.offline eq_refl) as H.
  cbv zeta in H. destruct H as (Hw & _ & _ & _ & Hn).
  split; [exact Hw | exact Hn].
Defined.

Lemma replace_job_pointwise (jobId : string) (updated : JobType) (js : list JobType) :
  Forall2 (fun old new => new = if String.eqb (job_id old) jobId then updated else old)
          js (JobProvider.replace_job jobId updated js).
Proof.
  induction js as [| job rest IH]; simpl; constructor; auto.
Qed.

Lemma replace_job_unknown (jobId : string) (updated : JobType) (js : list JobType) :
  ~ has_job jobId js -> JobProvider.replace_job jobId updated js = js.
Proof.
  intros Hno. unfold JobProvider.replace_job.
  rewrite <- (map_id js) at 2. apply map_ext_in.
  intros job Hin. destruct (String.eqb_spec (job_id job) jobId) as [Heq | Hne].
  - exfalso. apply Hno. exists job. auto.
  - reflexivity.
Qed.

(** X11. An update the server accepts puts the server's job in the place of
    every job with the identifier, in the job list, the user's jobs and the
    filtered jobs alike: each list keeps its length and order, and the jobs
    with another identifier are untouched.  A list that holds no job with
    the identifier is left as it was.  The server's job is returned and the
    success is notified twice, by the gateway and by the provider. *)
Theorem updateJob_success_patches
        (w : World) (jobId : string) (jobData : JobData) (updated : JobType) :
  let r := JobProvider.updateJob w jobId jobData (Success updated) in
  let patched (before after : list JobType) :=
    Forall2 (fun old new => new = if String.eqb (job_id old) jobId then updated else old)
            before after
    /\ (~ has_job jobId before -> after = before) in
  patched (jobs (store w)) (jobs (store (world r)))
  /\ patched (userJobs (store w)) (userJobs (store (world r)))
  /\ patched (filteredJobs (store w)) (filteredJobs (store (world r)))
  /\ returned r = Some updated
  /\ count is_success_toast (events r) = 2
  /\ count is_failure_toast (events r) = 0
  /\ local (world r) = local w.
Proof.
  cbv zeta. simpl.
  repeat split; try apply replace_job_pointwise; try apply replace_job_unknown.
Qed.

Lemma remove_job_In (jobId : string) (js : list JobType) (job : JobType) :
  In job (JobProvider.remove_job jobId js) <-> In job js /\ job_id job <> jobId.
Proof.
  clear decodeToken.
  unfold JobProvider.remove_job.
  rewrite filter_In, negb_true_iff, String.eqb_neq. tauto.
Qed.

Lemma remove_job_idempotent (jobId : string) (js : list JobType) :
  JobProvider.remove_job jobId (JobProvider.remove_job jobId js)
  = JobProvider.remove_job jobId js.
Proof.
  unfold JobProvider.remove_job.
  induction js as [| job rest IH]; simpl; [reflexivity |].
  destruct (String.eqb (job_id job) jobId) eqn:Heq; simpl; [exact IH |].
  rewrite Heq. simpl. rewrite IH. reflexivity.
Qed.

Lemma remove_job_unknown (jobId : string) (js : list JobType) :
  ~ has_job jobId js -> JobProvider.remove_job jobId js = js.
Proof.
  intros Hno. unfold JobProvider.remove_job.
  induction js as [| job rest IH]; simpl; [reflexivity |].
  destruct (String.eqb_spec (job_id job) jobId) as [Heq | Hne]; simpl.
  - exfalso. apply Hno. exists job. simpl. auto.
  - f_equal. apply IH. intros (j & Hin & Hid). apply Hno. exists j. simpl. auto.
Qed.

(** X12. A deletion the server confirms leaves no job with the identifier
    in the job list, the user's jobs and the filtered jobs, and keeps every
    other job of these lists; deleting the same job once more, or a job that
    is in none of them, changes no list.  A deletion the server refuses, or
    whose request throws, returns [false] and leaves the store as it was. *)
Theorem deleteJob_removes_everywhere (w : World) (jobId : string) :
  let r := JobProvider.deleteJob w jobId (Success tt) in
  let s := store (world r) in
  returned r = true
  /\ ~ has_job jobId (jobs s) /\ ~ has_job jobId (userJobs s)
  /\ ~ has_job jobId (filteredJobs s)
  /\ (forall job, job_id job <> jobId ->
                  (In job (jobs s) <-> In job (jobs (store w)))
                  /\ (In job (userJobs s) <-> In job (userJobs (store w)))
                  /\ (In job (filteredJobs s) <-> In job (filteredJobs (store w))))
  /\ (let again := store (world (JobProvider.deleteJob (world r) jobId (Success tt))) in
      jobs again = jobs s /\ userJobs again = userJobs s
      /\ filteredJobs again = filteredJobs s)
  /\ (~ has_job jobId (jobs (store w)) -> jobs s = jobs (store w))
  /\ (forall resp, transport_failure resp = true ->
                   world (JobProvider.deleteJob w jobId resp) = w
                   /\ returned (JobProvider.deleteJob w jobId resp) = false).
Proof.
  clear decodeToken.
  cbv zeta. simpl.
  assert (Hgone : forall js, ~ has_job jobId (JobProvider.remove_job jobId js)).
  { intros js (job & Hin & Hid). apply remove_job_In in Hin. tauto. }
  split; [reflexivity |].
  split; [apply Hgone |]. split; [apply Hgone |]. split; [apply Hgone |].
  split.
  { intros job Hne. rewrite !remove_job_In. tauto. }
  split.
  { rewrite !remove_job_idempotent. auto. }
  split; [apply remove_job_unknown |].
  intros resp Hfail.
  destruct resp as [e | m | u]; try discriminate Hfail; destruct w; split; reflexivity.
Qed.

Lemma deleteJob_removes_everywhere_witness :
  map job_id (jobs (store (world (JobProvider.deleteJob Sample.world4 "Z" (Success tt)))))
  = ["A"; "B"; "C"; "D"]
  /\ world (JobProvider.deleteJob Sample.world4 "B" Sample.offline) = Sample.world4.
Proof.
  pose proof (deleteJob_removes_everywhere Sample.world4 "Z") as H.
  cbv zeta in H. destruct H as (_ & _ & _ & _ & _ & _ & Hunknown & Hfail).
  split.
  - rewrite Hunknown; [reflexivity |].
    intros (job & Hin & Hid). vm_compute in Hin.
    destruct Hin as [<- | [<- | [<- | [<- | []]]]]; discriminate Hid.
  - pose proof (deleteJob_removes_everywhere Sample.world4 "B") as H'.
    cbv zeta in H'. destruct H' as (_ & _ & _ & _ & _ & _ & _ & Hfail').
    exact (proj1 (Hfail' Sample.offline eq_refl)).
Defined.

(** X13. The provider's [createJob] with incomplete data changes nothing,
    issues no request and returns [null], and the user sees three failure
    notifications: two from the gateway and one from the provider.  With
    complete data and a success of the server it returns the server's job
    and leaves the store exactly as a refresh does: the created job is
    shown only if the refresh brings it. *)
Theorem createJob_provider_outcomes
        (w : World) (jobData : JobData) (resp : Response JobType)
        (r1 r2 : Response (list JobType)) :
  let r := JobProvider.createJob w jobData resp r1 r2 in
  (jobService.missing_fields jobData = true ->
   world r = w /\ returned r = None
   /\ count is_request (events r) = 0
   /\ count is_failure_toast (events r) = 3
   /\ count is_success_toast (events r) = 0)
  /\ (forall created,
         jobService.missing_fields jobData = false -> resp = Success created ->
         returned r = Some created
         /\ world r = world (JobProvider.refreshJobs w r1 r2)
         /\ popularJobs (store (world r)) = Js.slice0 3 (jobs (store (world r)))).
Proof.
  intros r. subst r. unfold JobProvider.createJob, jobService.createJob. split.
  - intros ->. simpl. destruct w. repeat split.
  - intros created -> ->. simpl.
    assert (Hw : with_local (local w) w = w) by (destruct w; reflexivity).
    rewrite Hw. repeat split. apply refreshJobs_popular.
Qed.

Lemma createJob_provider_outcomes_witness :
  world (JobProvider.createJob Sample.world1 Sample.jobData0 (Success (Sample.job "N"))
                               (Success [Sample.A]) (Success [Sample.A]))
  = Sample.world1
  /\ returned (JobProvider.createJob Sample.world1 Sample.jobData1
                                     (Success (Sample.job "N"))
                                     Sample.offline Sample.offline)
     = Some (Sample.job "N").
Proof.
  split.
  - pose proof (createJob_provider_outcomes
                  Sample.world1 Sample.jobData0 (Success (Sample.job "N"))
                  (Success [Sample.A]) (Success [Sample.A])) as H.
    cbv zeta in H. destruct H as [Hmiss _]. exact (proj1 (Hmiss eq_refl)).
  - pose proof (createJob_provider_outcomes
                  Sample.world1 Sample.jobData1 (Success (Sample.job "N"))
                  Sample.offline Sample.offline) as H.
    cbv zeta in H. destruct H as [_ Hok].
    exact (proj1 (Hok (Sample.job "N") eq_refl eq_refl)).
Defined.

End JobMutations.

Section CommentMutations.

Variable decodeToken : string -> option UserInfo.

Lemma with_comments_same (job : JobType) : with_comments job (job_comments job) = job.
Proof. destruct job; reflexivity. Qed.

Lemma append_comment_ids (jobId : string) (temp : CommentType) (js : list JobType) :
  map job_id (JobProvider.append_comment jobId temp js) = map job_id js.
Proof.
  unfold JobProvider.append_comment. rewrite map_map. apply map_ext.
  intros job. destruct (String.eqb (job_id job) jobId); reflexivity.
Qed.

Lemma map_unknown_job (jobId : string) (F G : JobType -> JobType) (js : list JobType) :
  ~ has_job jobId js ->
  map (fun job => if String.eqb (job_id job) jobId then F job else G job) js = map G js.
Proof.
  intros Hno. apply map_ext_in.
  intros job Hin. destruct (String.eqb_spec (job_id job) jobId) as [Heq | Hne].
  - exfalso. apply Hno. exists job. auto.
  - reflexivity.
Qed.

Lemma comments_of_other_job (jobId other : string) (F : JobType -> JobType)
      (js : list JobType) :
  other <> jobId ->
  (forall job, job_id (F job) = job_id job) ->
  JobProvider.comments_of
    other (map (fun job => if String.eqb (job_id job) jobId then F job else job) js)
  = JobProvider.comments_of other js.
Proof.
  intros Hne Hid. unfold JobProvider.comments_of.
  rewrite find_job_map.
  - destruct (Js.find (fun job => String.eqb (job_id job) other) js) as [job |] eqn:Hfind;
      simpl; [| reflexivity].
    apply find_some in Hfind. destruct Hfind as [_ Heq].
    apply String.eqb_eq in Heq.
    destruct (String.eqb_spec (job_id job) jobId) as [Hsame | _]; [| reflexivity].
    congruence.
  - intros job. destruct (String.eqb (job_id job) jobId); auto.
Qed.

Lemma addComment_gateway_one_request
      (st : Storage) (jobId text : string) (resp : Response CommentType)
      (uuid : Outcome string) (now : Z) :
  count is_request (trace (jobService.addComment decodeToken st jobId text resp uuid now))
  = 1.
Proof.
  unfold jobService.addComment.
  destruct resp as [e | m | c]; destruct uuid as [id | e'];
    try destruct (cachedJobs st); reflexivity.
Qed.

(** X14. Without a logged-in user neither [addComment] nor [addReply]
    reaches the gateway: no request is made, nothing changes, [undefined] is
    returned and the only event is one failure notification. *)
Theorem commenting_requires_login (w : World) :
  currentUser w = None ->
  (forall jobId text now_id now_ts resp uuid now,
      let r := JobProvider.addComment decodeToken w jobId text now_id now_ts
                                      resp uuid now in
      world r = w /\ returned r = None
      /\ events r = [toast Destructive "Error" "Debes iniciar sesión para comentar."])
  /\ (forall commentId jobId text now_id now_ts resp uuid now,
         let r := JobProvider.addReply decodeToken w commentId jobId text now_id now_ts
                                       resp uuid now in
         world r = w /\ returned r = None
         /\ events r = [toast Destructive "Error" "Debes iniciar sesión para responder."]).
Proof.
  intros Hnone. split; intros; subst r;
    unfold JobProvider.addComment, JobProvider.addReply; rewrite Hnone;
    repeat split.
Qed.

(** X15. The optimistic step of [addComment], before the gateway is called:
    the comment sequence of the job is the former one followed by the
    temporary comment, which is attributed to the current user, carries the
    text and has no replies; the comments of every other job, the
    identifiers and the order of the jobs, and the storage are as before. *)
Theorem addComment_begin_shows_comment_at_once
        (w : World) (user : UserType) (jobId text : string) (now_id now_ts : Z) :
  let temp := fst (JobProvider.addComment_begin w user jobId text now_id now_ts) in
  let w1 := snd (JobProvider.addComment_begin w user jobId text now_id now_ts) in
  (has_job jobId (jobs (store w)) ->
   JobProvider.comments_of jobId (jobs (store w1))
   = JobProvider.comments_of jobId (jobs (store w)) ++ [temp])
  /\ (forall other, other <> jobId ->
                    JobProvider.comments_of other (jobs (store w1))
                    = JobProvider.comments_of other (jobs (store w)))
  /\ map job_id (jobs (store w1)) = map job_id (jobs (store w))
  /\ local w1 = local w
  /\ comment_userId temp = user_id user
  /\ comment_userName temp = user_name user
  /\ comment_jobId temp = jobId
  /\ comment_text temp = text
  /\ comment_timestamp temp = now_ts
  /\ comment_replies temp = Some [].
Proof.
  cbv zeta. simpl.
  split; [apply comments_of_append_comment |].
  split.
  { intros other Hne. unfold JobProvider.append_comment.
    apply (comments_of_other_job
             jobId other
             (fun job => with_comments job (Some (Js.or_nil (job_comments job) ++ [_]))));
      auto. }
  split; [apply append_comment_ids |].
  repeat split.
Qed.

Lemma addComment_begin_shows_comment_at_once_witness :
  map comment_text
      (JobProvider.comments_of
         "A" (jobs (store (snd (JobProvider.addComment_begin
                                  Sample.world1 Sample.alice "A" "hello"
                                  Sample.t0 Sample.t0)))))
  = ["hello"].
Proof.
  pose proof (addComment_begin_shows_comment_at_once
                Sample.world1 Sample.alice "A" "hello" Sample.t0 Sample.t0) as H.
  cbv zeta in H. destruct H as (Hshown & _).
  rewrite Hshown; [reflexivity |].
  exists (jobService.ensure_comments Sample.A). split; [left |]; reflexivity.
Defined.

(** X16. A comment for a job that is not in the job list: the request is
    made all the same, and whatever comes back the job list is left exactly
    as it was, so the comment is shown nowhere; when the server accepted it,
    the user is still told that it was published. *)
Theorem addComment_unknown_job_changes_nothing
        (w : World) (user : UserType) (jobId text : string) (now_id now_ts : Z)
        (resp : Response CommentType) (uuid : Outcome string) (now : Z) :
  currentUser w = Some user ->
  ~ has_job jobId (jobs (store w)) ->
  let r := JobProvider.addComment decodeToken w jobId text now_id now_ts resp uuid now in
  store (world r) = store w
  /\ count is_request (events r) = 1
  /\ (forall c, resp = Success c ->
                returned r = Some c /\ count is_success_toast (events r) = 1).
Proof.
  intros Huser Hno r. subst r. unfold JobProvider.addComment. rewrite Huser.
  unfold JobProvider.addComment_begin, JobProvider.addComment_settle.
  assert (Happend : forall temp,
             JobProvider.append_comment jobId temp (jobs (store w)) = jobs (store w)).
  { intros temp. unfold JobProvider.append_comment.
    rewrite (map_unknown_job jobId _ (fun job => job)) by exact Hno. apply map_id. }
  assert (Hrec : forall temp c,
             JobProvider.reconcile_comment jobId temp c (jobs (store w)) = jobs (store w)).
  { intros temp c. unfold JobProvider.reconcile_comment.
    rewrite (map_unknown_job jobId _ (fun job => job)) by exact Hno. apply map_id. }
  split; [| split].
  - destruct (outcome (jobService.addComment decodeToken _ jobId text resp uuid now));
      simpl; unfold setJobs; simpl; rewrite ?Happend, ?Hrec;
      destruct w as [[] ? ?]; reflexivity.
  - pose proof (addComment_gateway_one_request (local w) jobId text resp uuid now)
      as Hone. simpl.
    destruct (outcome (jobService.addComment decodeToken (local w) jobId text resp uuid now));
      simpl; unfold count in *; rewrite filter_app, length_app, Hone; reflexivity.
  - intros c ->. simpl. split; reflexivity.
Qed.

End CommentMutations.

Lemma addComment_unknown_job_changes_nothing_witness :
  store (world (JobProvider.addComment Sample.noToken Sample.world1 "Z" "hello"
                                       Sample.t0 Sample.t0
                                       (Success (Sample.comment "c-17" "hello"))
                                       (Resolved Sample.uuid0) Sample.t0))
  = store Sample.world1.
Proof.
  apply (addComment_unknown_job_changes_nothing
           Sample.noToken Sample.world1 Sample.alice "Z" "hello" Sample.t0 Sample.t0
           (Success (Sample.comment "c-17" "hello")) (Resolved Sample.uuid0) Sample.t0
           eq_refl).
  intros (job & Hin & Hid). vm_compute in Hin.
  destruct Hin as [<- | []]. discriminate Hid.
Defined.

Lemma commenting_requires_login_witness :
  let guest := mkWorld (store Sample.world1) Sample.storage0 None in
  events (JobProvider.addComment Sample.noToken guest "A" "hello" Sample.t0 Sample.t0
                                 (Success (Sample.comment "c-17" "hello"))
                                 (Resolved Sample.uuid0) Sample.t0)
  = [toast Destructive "Error" "Debes iniciar sesión para comentar."].
Proof.
  cbv zeta.
  destruct (commenting_requires_login
              Sample.noToken (mkWorld (store Sample.world1) Sample.storage0 None) eq_refl)
    as [Hcomment _].
  apply Hcomment.
Defined.

Section CommentOutcomes.

Variable decodeToken : string -> option UserInfo.

Lemma first_temp_is_find (js : list JobType) (jobId : string) :
  JobProvider.first_temp js jobId
  = Js.find (fun c => isTemporary (comment_id c)) (JobProvider.comments_of jobId js).
Proof.
  unfold JobProvider.first_temp, JobProvider.comments_of.
  destruct (Js.find (fun job => String.eqb (job_id job) jobId) js) as [job |];
    [| reflexivity].
  destruct (job_comments job); reflexivity.
Qed.

(** X17. What [addComment] returns when the gateway call rejects is read
    from the job list as it was when [addComment] was called: the first
    comment of the job with a "temp-" identifier among those it had before.
    So for a job that had no temporary comment the result is [undefined],
    although the new temporary comment is in the store. *)
Theorem addComment_rejected_returns_earlier_temp
        (w : World) (user : UserType) (jobId text : string) (now_id now_ts : Z)
        (resp : Response CommentType) (uuid : Outcome string) (now : Z) (e : Js.error) :
  currentUser w = Some user ->
  outcome (jobService.addComment decodeToken (local w) jobId text resp uuid now)
  = Rejected e ->
  let r := JobProvider.addComment decodeToken w jobId text now_id now_ts resp uuid now in
  let before := JobProvider.comments_of jobId (jobs (store w)) in
  returned r = Js.find (fun c => isTemporary (comment_id c)) before
  /\ ((forall c, In c before -> isTemporary (comment_id c) = false) ->
      returned r = None)
  /\ (forall c, returned r = Some c -> In c before).
Proof.
  intros Huser Hout r before.
  assert (Hret : returned r = Js.find (fun c => isTemporary (comment_id c)) before).
  { subst r before. unfold JobProvider.addComment. rewrite Huser. simpl.
    unfold JobProvider.addComment_settle. simpl. rewrite Hout. simpl.
    apply first_temp_is_find. }
  split; [exact Hret |]. split.
  - intros Hnone. rewrite Hret. unfold Js.find.
    destruct (find (fun c => isTemporary (comment_id c)) before) as [c |] eqn:Hfind;
      [| reflexivity].
    apply find_some in Hfind. destruct Hfind as [Hin Htemp].
    rewrite (Hnone c Hin) in Htemp. discriminate Htemp.
  - intros c Hc. rewrite Hret in Hc. apply find_some in Hc. tauto.
Qed.

Lemma sweep_comment_ids (commentId : string) (js : list JobType) :
  map job_id (JobProvider.sweep_comment commentId js) = map job_id js.
Proof.
  unfold JobProvider.sweep_comment. rewrite map_map. reflexivity.
Qed.

Lemma comments_of_sweep_comment (commentId jobId : string) (js : list JobType) :
  JobProvider.comments_of jobId (JobProvider.sweep_comment commentId js)
  = filter (fun c => negb (String.eqb (comment_id c) commentId))
           (JobProvider.comments_of jobId js).
Proof.
  unfold JobProvider.comments_of, JobProvider.sweep_comment.
  rewrite find_job_map by reflexivity.
  destruct (Js.find (fun job => String.eqb (job_id job) jobId) js) as [job |];
    simpl; [| reflexivity].
  destruct (job_comments job); reflexivity.
Qed.

(** X18. A deletion of a comment the server confirms: the jobs keep their
    identifiers and order, in every job the comment sequence is the former
    one without the comments of that identifier (the others stay, in
    order), so no job holds the comment any more; deleting a comment that no
    job holds leaves every comment sequence as it was.  When the request
    throws, the store is unchanged and one failure is notified. *)
Theorem deleteComment_confirmed_sweeps (w : World) (commentId : string) :
  let r := JobProvider.deleteComment w commentId (Success tt) in
  let after := jobs (store (world r)) in
  map job_id after = map job_id (jobs (store w))
  /\ (forall jobId,
         JobProvider.comments_of jobId after
         = filter (fun c => negb (String.eqb (comment_id c) commentId))
                  (JobProvider.comments_of jobId (jobs (store w))))
  /\ (forall jobId, ~ has_comment commentId (JobProvider.comments_of jobId after))
  /\ (forall jobId,
         ~ has_comment commentId (JobProvider.comments_of jobId (jobs (store w))) ->
         JobProvider.comments_of jobId after
         = JobProvider.comments_of jobId (jobs (store w)))
  /\ count is_success_toast (events r) = 1
  /\ (forall e,
         let threw := JobProvider.deleteComment w commentId (Threw e) in
         world threw = w
         /\ count is_failure_toast (events threw) = 1
         /\ count is_success_toast (events threw) = 0).
Proof.
  cbv zeta. simpl.
  split; [apply sweep_comment_ids |].
  split; [intros jobId; apply comments_of_sweep_comment |].
  split.
  { intros jobId (c & Hin & Hid). rewrite comments_of_sweep_comment in Hin.
    apply filter_In in Hin. destruct Hin as [_ Hkeep].
    rewrite Hid, String.eqb_refl in Hkeep. discriminate Hkeep. }
  split.
  { intros jobId Hno. rewrite comments_of_sweep_comment.
    apply forallb_filter_id. apply forallb_forall. intros c Hin.
    apply negb_true_iff, String.eqb_neq. intros Hid. apply Hno. exists c. auto. }
  split; [reflexivity |].
  intros e. destruct w. repeat split.
Qed.

Lemma deleteComment_confirmed_sweeps_witness :
  JobProvider.comments_of
    "A" (jobs (store (world (JobProvider.deleteComment Sample.world1 "c-99" (Success tt)))))
  = JobProvider.comments_of "A" (jobs (store Sample.world1)).
Proof.
  pose proof (deleteComment_confirmed_sweeps Sample.world1 "c-99") as H.
  cbv zeta in H. destruct H as (_ & _ & _ & Hunknown & _).
  apply Hunknown. intros (c & Hin & _). exact Hin.
Defined.

End CommentOutcomes.

Lemma addComment_rejected_returns_earlier_temp_witness :
  let noRandom := Js.Error "crypto.getRandomValues() not supported" in
  let r := JobProvider.addComment Sample.noToken Sample.world1 "A" "hello"
                                  Sample.t0 Sample.t0 Sample.offline
                                  (Rejected noRandom) Sample.t0 in
  returned r = None
  /\ map comment_text (JobProvider.comments_of "A" (jobs (store (world r)))) = ["hello"].
Proof.
  cbv zeta. split; [| reflexivity].
  destruct (addComment_rejected_returns_earlier_temp
              Sample.noToken Sample.world1 Sample.alice "A" "hello" Sample.t0 Sample.t0
              Sample.offline (Rejected (Js.Error "crypto.getRandomValues() not supported"))
              Sample.t0 (Js.Error "crypto.getRandomValues() not supported")
              eq_refl eq_refl)
    as (_ & Hnone & _).
  apply Hnone. intros c Hin. destruct Hin.
Defined.

(** * Replies in the provider *)

Section ReplyFacts.

Variable decodeToken : string -> option UserInfo.

Lemma comments_of_map_comments_of (jobId : string) (f : CommentType -> CommentType)
      (js : list JobType) :
  JobProvider.comments_of jobId (JobProvider.map_comments_of jobId f js)
  = map f (JobProvider.comments_of jobId js).
Proof.
  unfold JobProvider.comments_of, JobProvider.map_comments_of.
  rewrite find_job_map.
  - destruct (Js.find (fun job => String.eqb (job_id job) jobId) js) as [job |] eqn:Hfind;
      simpl; [| reflexivity].
    apply find_some in Hfind. destruct Hfind as [_ Heq]. rewrite Heq. simpl.
    destruct (job_comments job); reflexivity.
  - intros job. destruct (String.eqb (job_id job) jobId); reflexivity.
Qed.

Lemma find_comment_map (commentId : string) (f : CommentType -> CommentType)
      (cs : list CommentType) :
  (forall c, comment_id (f c) = comment_id c) ->
  Js.find (fun c => String.eqb (comment_id c) commentId) (map f cs)
  = option_map f (Js.find (fun c => String.eqb (comment_id c) commentId) cs).
Proof.
  intros Hid. unfold Js.find.
  induction cs as [| c rest IH]; simpl; [reflexivity |].
  rewrite Hid. destruct (String.eqb (comment_id c) commentId); auto.
Qed.

Lemma has_comment_find (commentId : string) (cs : list CommentType) :
  has_comment commentId cs ->
  exists c, Js.find (fun c => String.eqb (comment_id c) commentId) cs = Some c
            /\ comment_id c = commentId.
Proof.
  intros (c & Hin & Hid). unfold Js.find.
  destruct (find (fun c => String.eqb (comment_id c) commentId) cs) as [found |] eqn:Hfind.
  - exists found. split; [reflexivity |].
    apply find_some in Hfind. apply String.eqb_eq. tauto.
  - exfalso. apply (find_none _ _ Hfind) in Hin.
    rewrite Hid, String.eqb_refl in Hin. discriminate.
Qed.

Lemma replies_of_append_reply (jobId commentId : string) (temp : ReplyType)
      (js : list JobType) :
  has_comment commentId (JobProvider.comments_of jobId js) ->
  replies_of jobId commentId (JobProvider.append_reply jobId commentId temp js)
  = replies_of jobId commentId js ++ [temp].
Proof.
  intros Hhas. destruct (has_comment_find _ _ Hhas) as (c & Hfind & Hid).
  unfold replies_of, JobProvider.append_reply.
  rewrite comments_of_map_comments_of, find_comment_map.
  - rewrite Hfind. simpl. rewrite Hid, String.eqb_refl. reflexivity.
  - intros c'. destruct (String.eqb (comment_id c') commentId); reflexivity.
Qed.

Lemma replies_of_reconcile_reply (jobId commentId : string) (temp reply : ReplyType)
      (js : list JobType) :
  has_comment commentId (JobProvider.comments_of jobId js) ->
  replies_of jobId commentId (JobProvider.reconcile_reply jobId commentId temp reply js)
  = filter (fun r => negb (String.eqb (reply_id r) (reply_id temp)))
           (replies_of jobId commentId js) ++ [reply].
Proof.
  intros Hhas. destruct (has_comment_find _ _ Hhas) as (c & Hfind & Hid).
  unfold replies_of, JobProvider.reconcile_reply.
  rewrite comments_of_map_comments_of, find_comment_map.
  - rewrite Hfind. simpl. rewrite Hid, String.eqb_refl. simpl.
    destruct (comment_replies c); reflexivity.
  - intros c'. destruct (String.eqb (comment_id c') commentId); reflexivity.
Qed.

Lemma has_comment_append_reply (jobId commentId : string) (temp : ReplyType)
      (js : list JobType) :
  has_comment commentId (JobProvider.comments_of jobId js) ->
  has_comment commentId
              (JobProvider.comments_of jobId
                 (JobProvider.append_reply jobId commentId temp js)).
Proof.
  intros (c & Hin & Hid). unfold JobProvider.append_reply.
  rewrite comments_of_map_comments_of.
  eexists. split; [apply in_map; exact Hin |].
  destruct (String.eqb (comment_id c) commentId); exact Hid.
Qed.

Lemma reply_occurrences_app (id : string) (xs ys : list ReplyType) :
  reply_occurrences id (xs ++ ys) = reply_occurrences id xs + reply_occurrences id ys.
Proof.
  unfold reply_occurrences. rewrite filter_app, length_app. reflexivity.
Qed.

Lemma reply_occurrences_zero (id : string) (rs : list ReplyType) :
  (forall r, In r rs -> reply_id r <> id) -> reply_occurrences id rs = 0.
Proof.
  unfold reply_occurrences. intros H.
  induction rs as [| r rest IH]; simpl; [reflexivity |].
  destruct (String.eqb (reply_id r) id) eqn:Heq.
  - apply String.eqb_eq in Heq. exfalso. apply (H r); simpl; auto.
  - apply IH. intros r' Hin. apply H. simpl; auto.
Qed.

Lemma reply_occurrences_single (id : string) (r : ReplyType) :
  reply_occurrences id [r] = if String.eqb (reply_id r) id then 1 else 0.
Proof.
  unfold reply_occurrences. simpl. destruct (String.eqb (reply_id r) id); reflexivity.
Qed.

(** X19. A logged-in user replies to a comment the job holds and the
    server answers with its reply, whose identifier is not temporary and is
    new among the replies of the comment.  Then the replies of the comment
    are the former ones, without any under the temporary identifier,
    followed by the server's reply: exactly one reply has the server's
    identifier and none the temporary one.  The server's reply is returned
    and one success is notified. *)
Theorem addReply_reconciles_with_server_reply
        (w : World) (user : UserType) (commentId jobId text : string) (now_id now_ts : Z)
        (reply : ReplyType) (uuid : Outcome string) (now : Z) :
  currentUser w = Some user ->
  has_comment commentId (JobProvider.comments_of jobId (jobs (store w))) ->
  isTemporary (reply_id reply) = false ->
  (forall r, In r (replies_of jobId commentId (jobs (store w))) ->
             reply_id r <> reply_id reply) ->
  let temp := JobProvider.tempReply user commentId text now_id now_ts in
  let r := JobProvider.addReply decodeToken w commentId jobId text now_id now_ts
                                (Success reply) uuid now in
  let final := replies_of jobId commentId (jobs (store (world r))) in
  final = filter (fun r => negb (String.eqb (reply_id r) (reply_id temp)))
                 (replies_of jobId commentId (jobs (store w))) ++ [reply]
  /\ reply_occurrences (reply_id reply) final = 1
  /\ reply_occurrences (reply_id temp) final = 0
  /\ returned r = Some reply
  /\ count is_success_toast (events r) = 1
  /\ count is_toast (events r) = 1.
Proof.
  intros Huser Hhas Hserver Hfresh temp r final.
  assert (Hne : reply_id reply <> reply_id temp).
  { intros Heq. rewrite Heq in Hserver. subst temp.
    rewrite tempReply_isTemporary in Hserver. discriminate. }
  assert (Hfilter : forall rs,
             filter (fun r => negb (String.eqb (reply_id r) (reply_id temp))) (rs ++ [temp])
             = filter (fun r => negb (String.eqb (reply_id r) (reply_id temp))) rs).
  { intros rs. rewrite filter_app. simpl. rewrite String.eqb_refl. simpl.
    apply app_nil_r. }
  assert (Hfinal : final
                   = filter (fun r => negb (String.eqb (reply_id r) (reply_id temp)))
                            (replies_of jobId commentId (jobs (store w))) ++ [reply]).
  { subst final r. unfold JobProvider.addReply. rewrite Huser. simpl.
    rewrite replies_of_reconcile_reply by (apply has_comment_append_reply; exact Hhas).
    rewrite replies_of_append_reply by exact Hhas.
    rewrite Hfilter. reflexivity. }
  assert (Hkept : forall x,
             In x (filter (fun r => negb (String.eqb (reply_id r) (reply_id temp)))
                          (replies_of jobId commentId (jobs (store w)))) ->
             In x (replies_of jobId commentId (jobs (store w)))
             /\ reply_id x <> reply_id temp).
  { intros x Hin. apply filter_In in Hin. destruct Hin as [Hin Hkeep].
    apply negb_true_iff in Hkeep. apply String.eqb_neq in Hkeep. auto. }
  split; [exact Hfinal |].
  split; [| split].
  - rewrite Hfinal, reply_occurrences_app.
    rewrite reply_occurrences_zero by (intros x Hin; apply Hfresh, Hkept, Hin).
    rewrite reply_occurrences_single, String.eqb_refl. reflexivity.
  - rewrite Hfinal, reply_occurrences_app.
    rewrite reply_occurrences_zero by (intros x Hin; apply Hkept, Hin).
    rewrite reply_occurrences_single.
    apply String.eqb_neq in Hne. rewrite Hne. reflexivity.
  - subst r. unfold JobProvider.addReply. rewrite Huser. repeat split.
Qed.

(** X20. A logged-in user replies to a comment the job holds and the
    gateway's [addReply] rejects.  Then the temporary reply stays as the
    last reply of the comment, it is what [addReply] returns, and exactly
    one notification, a failure, is shown. *)
Theorem addReply_keeps_temp_when_gateway_rejects
        (w : World) (user : UserType) (commentId jobId text : string) (now_id now_ts : Z)
        (resp : Response ReplyType) (uuid : Outcome string) (now : Z) (e : Js.error) :
  currentUser w = Some user ->
  has_comment commentId (JobProvider.comments_of jobId (jobs (store w))) ->
  outcome (jobService.addReply decodeToken (local w) commentId text resp uuid now)
  = Rejected e ->
  let temp := JobProvider.tempReply user commentId text now_id now_ts in
  let r := JobProvider.addReply decodeToken w commentId jobId text now_id now_ts
                                resp uuid now in
  replies_of jobId commentId (jobs (store (world r)))
  = replies_of jobId commentId (jobs (store w)) ++ [temp]
  /\ returned r = Some temp
  /\ reply_text temp = text
  /\ isTemporary (reply_id temp) = true
  /\ count is_failure_toast (events r) = 1
  /\ count is_toast (events r) = 1.
Proof.
  intros Huser Hhas Hout temp r. subst temp r.
  unfold JobProvider.addReply. rewrite Huser. simpl. rewrite Hout. simpl.
  split; [apply replies_of_append_reply; exact Hhas |].
  split; [reflexivity |]. split; [reflexivity |].
  split; [exact (tempReply_isTemporary user commentId text now_id now_ts) |].
  unfold jobService.addReply in *.
  destruct resp as [e0 | m | rp]; destruct uuid as [id | e']; simpl in *;
    try discriminate Hout; split; reflexivity.
Qed.

Lemma map_comments_of_unchanged (jobId : string) (f : CommentType -> CommentType)
      (js : list JobType) :
  (forall job c, In job js -> job_id job = jobId ->
                 In c (Js.or_nil (job_comments job)) -> f c = c) ->
  JobProvider.map_comments_of jobId f js = js.
Proof.
  intros Hsame. unfold JobProvider.map_comments_of.
  rewrite <- (map_id js) at 2. apply map_ext_in.
  intros job Hin. destruct (String.eqb_spec (job_id job) jobId) as [Heq | Hne];
    [| reflexivity].
  assert (Hcs : option_map (map f) (job_comments job) = job_comments job).
  { specialize (Hsame job). destruct (job_comments job) as [cs |]; simpl; [| reflexivity].
    f_equal. rewrite <- (map_id cs) at 2. apply map_ext_in.
    intros c Hc. apply Hsame; assumption. }
  rewrite Hcs. apply with_comments_same.
Qed.

(** X21. A reply to a comment that no job with the given identifier holds
    (the job is unknown, has no comment sequence, or has no such comment):
    the request is made all the same, and whatever comes back the job list
    is left exactly as it was, so the reply is shown nowhere. *)
Theorem addReply_unknown_comment_changes_nothing
        (w : World) (user : UserType) (commentId jobId text : string) (now_id now_ts : Z)
        (resp : Response ReplyType) (uuid : Outcome string) (now : Z) :
  currentUser w = Some user ->
  (forall job c, In job (jobs (store w)) -> job_id job = jobId ->
                 In c (Js.or_nil (job_comments job)) -> comment_id c <> commentId) ->
  let r := JobProvider.addReply decodeToken w commentId jobId text now_id now_ts
                                resp uuid now in
  store (world r) = store w
  /\ count is_request (events r) = 1.
Proof.
  intros Huser Hno r. subst r. unfold JobProvider.addReply. rewrite Huser.
  assert (Hsame : forall F : CommentType -> CommentType,
             JobProvider.map_comments_of
               jobId (fun c => if String.eqb (comment_id c) commentId then F c else c)
               (jobs (store w)) = jobs (store w)).
  { intros F. apply map_comments_of_unchanged.
    intros job c Hin Hid Hc.
    destruct (String.eqb_spec (comment_id c) commentId) as [Heq | _]; [| reflexivity].
    exfalso. exact (Hno job c Hin Hid Hc Heq). }
  split.
  - simpl.
    destruct (outcome (jobService.addReply decodeToken (local w) commentId text
                                           resp uuid now));
      simpl; unfold setJobs, JobProvider.append_reply, JobProvider.reconcile_reply;
      simpl; rewrite !Hsame; destruct w as [[] ? ?]; reflexivity.
  - simpl.
    destruct resp as [e0 | m | rp]; destruct uuid as [id | e']; reflexivity.
Qed.

End ReplyFacts.

(** Alice replies to the comment [c-17] of job [A]; the server stores the
    reply as [r-3]. *)
Lemma addReply_reconciles_with_server_reply_witness :
  let w := JobProvider.run Sample.noToken Sample.world1
             [JobProvider.AddComment "A" "hello" Sample.t0 Sample.t0
                (Success (Sample.comment "c-17" "hello"))
                (Resolved Sample.uuid0) Sample.t0] in
  let reply := mkReply "r-3" "u1" "c-17" "thanks" None Sample.t0 "Alice" "" in
  let r := JobProvider.addReply Sample.noToken w "c-17" "A" "thanks" Sample.t0 Sample.t0
                                (Success reply) (Resolved Sample.uuid0) Sample.t0 in
  replies_of "A" "c-17" (jobs (store (world r))) = [reply].
Proof.
  cbv zeta.
  match goal with
  | |- replies_of _ _ (jobs (store (world (JobProvider.addReply _ ?w _ _ _ _ _ _ _ _)))) = _ =>
      destruct (addReply_reconciles_with_server_reply
                  Sample.noToken w Sample.alice "c-17" "A" "thanks" Sample.t0 Sample.t0
                  (mkReply "r-3" "u1" "c-17" "thanks" None Sample.t0 "Alice" "")
                  (Resolved Sample.uuid0) Sample.t0 eq_refl)
        as (Hfinal & _)
  end.
  - exists (Sample.comment "c-17" "hello"). split; [left |]; reflexivity.
  - reflexivity.
  - intros r Hin. destruct Hin.
  - rewrite Hfinal. reflexivity.
Defined.

Lemma addReply_keeps_temp_when_gateway_rejects_witness :
  let w := JobProvider.run Sample.noToken Sample.world1
             [JobProvider.AddComment "A" "hello" Sample.t0 Sample.t0
                (Success (Sample.comment "c-17" "hello"))
                (Resolved Sample.uuid0) Sample.t0] in
  let noRandom := Js.Error "crypto.getRandomValues() not supported" in
  let r := JobProvider.addReply Sample.noToken w "c-17" "A" "thanks" Sample.t0 Sample.t0
                                Sample.offline (Rejected noRandom) Sample.t0 in
  map reply_id (replies_of "A" "c-17" (jobs (store (world r))))
  = ["temp-reply-1700000001000"].
Proof.
  cbv zeta.
  match goal with
  | |- map _ (replies_of _ _ (jobs (store (world
           (JobProvider.addReply _ ?w _ _ _ _ _ _ _ _))))) = _ =>
      destruct (addReply_keeps_temp_when_gateway_rejects
                  Sample.noToken w Sample.alice "c-17" "A" "thanks" Sample.t0 Sample.t0
                  Sample.offline
                  (Rejected (Js.Error "crypto.getRandomValues() not supported"))
                  Sample.t0 (Js.Error "crypto.getRandomValues() not supported") eq_refl)
        as (Hfinal & _)
  end.
  - exists (Sample.comment "c-17" "hello"). split; [left |]; reflexivity.
  - reflexivity.
  - rewrite Hfinal. reflexivity.
Defined.

Lemma addReply_unknown_comment_changes_nothing_witness :
  store (world (JobProvider.addReply Sample.noToken Sample.world1 "c-99" "A" "thanks"
                                     Sample.t0 Sample.t0 Sample.offline
                                     (Resolved Sample.uuid0) Sample.t0))
  = store Sample.world1.
Proof.
  apply (addReply_unknown_comment_changes_nothing
           Sample.noToken Sample.world1 Sample.alice "c-99" "A" "thanks"
           Sample.t0 Sample.t0 Sample.offline (Resolved Sample.uuid0) Sample.t0 eq_refl).
  intros job c Hin _ Hc. vm_compute in Hin. destruct Hin as [<- | []]. destruct Hc.
Defined.

(** * Sequences of mutations *)

Section Sequences.

Variable decodeToken : string -> option UserInfo.

Lemma comments_present_map (F : JobType -> JobType) (js : list JobType) :
  (forall job, job_comments job <> None -> job_comments (F job) <> None) ->
  comments_present js -> comments_present (map F js).
Proof.
  unfold comments_present. intros HF Hjs.
  induction Hjs as [| job rest Hjob _ IH]; simpl; constructor; auto.
Qed.

Lemma comments_present_filter (p : JobType -> bool) (js : list JobType) :
  comments_present js -> comments_present (filter p js).
Proof.
  unfold comments_present. intros Hjs. apply Forall_forall.
  intros job Hin. apply filter_In in Hin.
  rewrite Forall_forall in Hjs. apply Hjs. tauto.
Qed.

Lemma comments_present_firstn (n : nat) (js : list JobType) :
  comments_present js -> comments_present (firstn n js).
Proof.
  unfold comments_present. intros Hjs. apply Forall_forall.
  intros job Hin. rewrite Forall_forall in Hjs. apply Hjs.
  rewrite <- (firstn_skipn n js). apply in_or_app. auto.
Qed.

Lemma cached_or_empty_trySet (v : list JobType) (st : Storage) :
  comments_present v ->
  comments_present (jobService.cached_or_empty st) ->
  comments_present (jobService.cached_or_empty (trySetCachedJobs v st)).
Proof.
  intros Hv Hst. unfold trySetCachedJobs, setCachedJobs.
  destruct (quotaExceeded st); simpl; assumption.
Qed.

Lemma getAllJobs_keeps_comments (st : Storage) (resp : Response (list JobType)) :
  comments_present (jobService.cached_or_empty st) ->
  comments_present (jobService.cached_or_empty (storage (jobService.getAllJobs st resp)))
  /\ forall allJobs, outcome (jobService.getAllJobs st resp) = Resolved allJobs ->
                     comments_present allJobs.
Proof.
  intros Hst. destruct resp as [e | m | js]; simpl.
  - split; [exact Hst | intros l H; injection H as <-; exact Hst].
  - split; [exact Hst | intros l H; injection H as <-; exact Hst].
  - split.
    + apply cached_or_empty_trySet; [apply ensure_comments_present | exact Hst].
    + intros l H. injection H as <-. apply ensure_comments_present.
Qed.

Lemma refreshJobs_keeps_comments (w : World) (r1 r2 : Response (list JobType)) :
  comments_kept w -> comments_kept (world (JobProvider.refreshJobs w r1 r2)).
Proof.
  intros [_ Hcache]. unfold comments_kept.
  pose proof (refreshJobs_comments_present w r1 r2 Hcache) as Hjobs.
  split; [exact Hjobs |].
  unfold JobProvider.refreshJobs.
  destruct (getAllJobs_keeps_comments (local w) r1 Hcache) as [Hc1 _].
  destruct r1 as [e1 | m1 | js1]; simpl in *;
    destruct (currentUser w) as [user |]; simpl; try assumption.
  all: unfold jobService.getJobsByUser.
  all: match goal with
       | |- context [jobService.getAllJobs ?st ?r] =>
           destruct (getAllJobs_keeps_comments st r) as [Hc2 _]; [assumption |];
           destruct (getAllJobs_resolves st r) as [all Hall];
           rewrite Hall; simpl; exact Hc2
       end.
Qed.

Lemma cache_merge_keeps_comments (jobId : string) (c : CommentType) (js : list JobType) :
  comments_present js -> comments_present (jobService.cache_merge jobId c js).
Proof.
  apply comments_present_map.
  intros job Hjob. destruct (String.eqb (job_id job) jobId); [discriminate | exact Hjob].
Qed.

Lemma addComment_gateway_keeps_comments
      (st : Storage) (jobId text : string) (resp : Response CommentType)
      (uuid : Outcome string) (now : Z) :
  comments_present (jobService.cached_or_empty st) ->
  comments_present
    (jobService.cached_or_empty
       (storage (jobService.addComment decodeToken st jobId text resp uuid now))).
Proof.
  intros Hst. unfold jobService.addComment.
  destruct resp as [e | m | c]; destruct uuid as [id | e']; simpl; try exact Hst.
  all: destruct (cachedJobs st) as [snapshot |] eqn:Hcache; simpl; try exact Hst.
  all: apply cached_or_empty_trySet; [| exact Hst].
  all: apply cache_merge_keeps_comments.
  all: unfold jobService.cached_or_empty in Hst; rewrite Hcache in Hst; exact Hst.
Qed.

Lemma step_keeps_comments (w : World) (m : JobProvider.Mutation) :
  comments_kept w -> update_carries_comments m ->
  comments_kept (fst (JobProvider.step decodeToken w m)).
Proof.
  intros Hw Hm. destruct m; simpl.
  - apply refreshJobs_keeps_comments. exact Hw.
  - unfold JobProvider.createJob.
    destruct (outcome (jobService.createJob (local w) jobData resp)) eqn:Hout; simpl.
    + apply refreshJobs_keeps_comments.
      unfold jobService.createJob in *.
      destruct (jobService.missing_fields jobData); [discriminate Hout |].
      destruct resp; simpl in *; try discriminate Hout.
      destruct w; exact Hw.
    + unfold jobService.createJob in *.
      destruct (jobService.missing_fields jobData); [destruct w; exact Hw |].
      destruct resp; simpl in *; destruct w; exact Hw.
  - destruct Hw as [Hjobs Hcache].
    destruct resp as [e | msg | job]; simpl; split; try assumption.
    apply comments_present_map; [| exact Hjobs].
    intros j Hj. destruct (String.eqb (job_id j) jobId); [exact Hm | exact Hj].
  - destruct Hw as [Hjobs Hcache].
    destruct resp as [e | msg | u]; simpl; split; try assumption.
    apply comments_present_filter. exact Hjobs.
  - destruct Hw as [Hjobs Hcache]. unfold JobProvider.addComment.
    destruct (currentUser w) as [user |]; simpl; [| split; assumption].
    unfold JobProvider.addComment_settle. simpl.
    assert (Hmerged : comments_present
                        (JobProvider.append_comment
                           jobId (JobProvider.tempComment user jobId text now_id now_ts)
                           (jobs (store w)))).
    { apply comments_present_map; [| exact Hjobs].
      intros j Hj. destruct (String.eqb (job_id j) jobId); [discriminate | exact Hj]. }
    pose proof (addComment_gateway_keeps_comments (local w) jobId text resp uuid now Hcache)
      as Hstore.
    destruct (outcome (jobService.addComment decodeToken (local w) jobId text resp uuid now));
      simpl; split; try assumption.
    apply comments_present_map; [| exact Hmerged].
    intros j Hj. destruct (String.eqb (job_id j) jobId); [discriminate | exact Hj].
  - destruct Hw as [Hjobs Hcache]. unfold JobProvider.addReply.
    destruct (currentUser w) as [user |]; simpl; [| split; assumption].
    assert (Hmapped : forall f js, comments_present js ->
                                   comments_present (JobProvider.map_comments_of jobId f js)).
    { intros f js Hjs. apply comments_present_map; [| exact Hjs].
      intros j Hj. destruct (String.eqb (job_id j) jobId); [| exact Hj].
      simpl. destruct (job_comments j); [discriminate | contradiction]. }
    assert (Hst : storage (jobService.addReply decodeToken (local w) commentId text
                                               resp uuid now) = local w).
    { destruct resp; destruct uuid; reflexivity. }
    rewrite Hst.
    destruct (outcome (jobService.addReply decodeToken (local w) commentId text
                                           resp uuid now));
      simpl; split; try assumption;
      unfold JobProvider.append_reply, JobProvider.reconcile_reply,
        on_store, with_local, setJobs; simpl;
      repeat apply Hmapped; exact Hjobs.
  - destruct Hw as [Hjobs Hcache].
    destruct resp as [e | msg | u]; simpl; split; try assumption.
    all: apply comments_present_map; [| exact Hjobs].
    all: intros j Hj; simpl; destruct (job_comments j); [discriminate | contradiction].
Qed.

(** X22. Every job of the job list keeps a comment sequence through any
    sequence of mutations in which no accepted update comes back without
    the comments of the job: refreshes, creations, deletions, comments,
    replies and deletions of comments never lose it, whatever the network
    answers; and the cached snapshot keeps it as well. *)
Theorem run_keeps_comment_sequences (w : World) (ms : list JobProvider.Mutation) :
  comments_kept w ->
  Forall update_carries_comments ms ->
  comments_kept (JobProvider.run decodeToken w ms).
Proof.
  intros Hw Hms. revert w Hw.
  induction Hms as [| m rest Hm _ IH]; intros w Hw; simpl; [exact Hw |].
  apply IH. apply step_keeps_comments; assumption.
Qed.

End Sequences.

(** From the start: a refresh, a comment made offline, a reply and an update
    whose answer carries the comments. *)
Lemma run_keeps_comment_sequences_witness :
  comments_kept
    (JobProvider.run Sample.noToken Sample.world0
       [JobProvider.RefreshJobs (Success [Sample.bare "A"]) Sample.offline;
        JobProvider.AddComment "A" "hello" Sample.t0 Sample.t0 Sample.offline
                               (Resolved Sample.uuid0) Sample.t0;
        JobProvider.AddReply Sample.uuid0 "A" "thanks" Sample.t0 Sample.t0
                             Sample.offline (Resolved Sample.uuid0) Sample.t0;
        JobProvider.UpdateJob "A" Sample.jobData1 (Success Sample.A)]).
Proof.
  apply run_keeps_comment_sequences.
  - split; constructor.
  - repeat constructor. discriminate.
Defined.

Section Untouched.

Variable decodeToken : string -> option UserInfo.

Lemma untouched_refl (w : World) : untouched w w.
Proof. repeat split; auto. Qed.

Lemma untouched_trans (w1 w2 w3 : World) :
  untouched w1 w2 -> untouched w2 w3 -> untouched w1 w3.
Proof.
  unfold untouched. intros (Hu & Ht & Hq & Hs & Hl) (Hu' & Ht' & Hq' & Hs' & Hl').
  repeat split; try congruence; auto.
Qed.

Lemma trySetCachedJobs_token (v : list JobType) (st : Storage) :
  token (trySetCachedJobs v st) = token st.
Proof.
  unfold trySetCachedJobs, setCachedJobs. destruct (quotaExceeded st); reflexivity.
Qed.

Lemma refreshJobs_untouched (w : World) (r1 r2 : Response (list JobType)) :
  untouched w (world (JobProvider.refreshJobs w r1 r2)).
Proof.
  unfold untouched, JobProvider.refreshJobs.
  destruct r1 as [e1 | m1 | js1]; simpl;
    destruct (currentUser w) as [user |] eqn:Huser; simpl;
    try (destruct r2 as [e2 | m2 | js2]; simpl);
    rewrite ?trySetCachedJobs_token, ?trySetCachedJobs_quota;
    repeat split; auto.
Qed.

Lemma step_untouched (w : World) (m : JobProvider.Mutation) :
  untouched w (fst (JobProvider.step decodeToken w m)).
Proof.
  destruct m; simpl.
  - apply refreshJobs_untouched.
  - unfold JobProvider.createJob, jobService.createJob.
    destruct (jobService.missing_fields jobData); simpl;
      [destruct w; apply untouched_refl |].
    destruct resp as [e | msg | job]; simpl; try (destruct w; apply untouched_refl).
    assert (Hw : with_local (local w) w = w) by (destruct w; reflexivity).
    rewrite Hw. apply refreshJobs_untouched.
  - unfold untouched. destruct resp as [e | msg | job]; simpl; repeat split; auto.
  - unfold untouched. destruct resp as [e | msg | u]; simpl; repeat split; auto.
  - unfold JobProvider.addComment.
    destruct (currentUser w) as [user |] eqn:Huser; simpl; [| apply untouched_refl].
    unfold untouched, JobProvider.addComment_settle, jobService.addComment. simpl.
    destruct resp as [e | msg | c]; destruct uuid as [id | e'];
      try destruct (cachedJobs (local w)); simpl;
      rewrite ?trySetCachedJobs_token, ?trySetCachedJobs_quota;
      repeat split; auto.
  - unfold JobProvider.addReply.
    destruct (currentUser w) as [user |] eqn:Huser; simpl; [| apply untouched_refl].
    unfold untouched.
    destruct resp as [e | msg | rp]; destruct uuid as [id | e']; simpl;
      repeat split; auto.
  - unfold untouched. destruct resp as [e | msg | u]; simpl; repeat split; auto.
Qed.

(** X23. No sequence of mutations changes who is logged in, the stored
    token, or whether the storage takes writes; the saved jobs, empty at the
    start, stay empty, and [loading], off before the sequence, is off after
    it. *)
Theorem run_leaves_session_and_saved_jobs
        (w : World) (ms : list JobProvider.Mutation) :
  untouched w (JobProvider.run decodeToken w ms).
Proof.
  revert w. induction ms as [| m rest IH]; intros w; simpl.
  - apply untouched_refl.
  - apply (untouched_trans w (fst (JobProvider.step decodeToken w m))).
    + apply step_untouched.
    + apply IH.
Qed.

End Untouched.

Lemma run_leaves_session_and_saved_jobs_witness :
  savedJobs (store (JobProvider.run Sample.noToken Sample.world0
                      [JobProvider.RefreshJobs (Success [Sample.A]) Sample.offline;
                       JobProvider.DeleteJob "A" (Success tt)])) = []
  /\ loading (store (JobProvider.run Sample.noToken Sample.world0
                       [JobProvider.RefreshJobs (Success [Sample.A]) Sample.offline;
                        JobProvider.DeleteJob "A" (Success tt)])) = false.
Proof.
  destruct (run_leaves_session_and_saved_jobs
              Sample.noToken Sample.world0
              [JobProvider.RefreshJobs (Success [Sample.A]) Sample.offline;
               JobProvider.DeleteJob "A" (Success tt)])
    as (_ & _ & _ & Hsaved & Hloading).
  split; [apply Hsaved | apply Hloading]; reflexivity.
Defined.

(** * The profile page *)

Section Skills.

Import ProfilePage.

Lemma includes_In (skill : string) (skills : list string) :
  includes skill skills = true <-> In skill skills.
Proof.
  unfold includes. rewrite existsb_exists. split.
  - intros (s & Hin & Heq). apply String.eqb_eq in Heq. subst s. exact Hin.
  - intros Hin. exists skill. split; [exact Hin | apply String.eqb_refl].
Qed.

Lemma with_skills_same (form : ProfileForm) : with_skills form (form_skills form) = form.
Proof. destruct form; reflexivity. Qed.

Lemma handleAddSkill_new (form : ProfileForm) (selectedSkill skill : string) :
  skill <> "" -> ~ In skill (form_skills form) ->
  form_skills (fst (handleAddSkill form selectedSkill skill))
  = form_skills form ++ [skill].
Proof.
  intros Hne Hno. unfold handleAddSkill.
  apply String.eqb_neq in Hne. rewrite Hne. simpl.
  destruct (includes skill (form_skills form)) eqn:Hinc; [| reflexivity].
  apply includes_In in Hinc. contradiction.
Qed.

(** X24. [handleAddSkill] keeps the skills of the form free of duplicates:
    the empty selection and a skill the form already has change nothing, not
    even the selection; any other skill is put once, at the end, and the
    selection is cleared.  Name, email and bio are never touched. *)
Theorem handleAddSkill_keeps_skills_distinct
        (form : ProfileForm) (selectedSkill skill : string) :
  let form' := fst (handleAddSkill form selectedSkill skill) in
  let selected' := snd (handleAddSkill form selectedSkill skill) in
  (NoDup (form_skills form) -> NoDup (form_skills form'))
  /\ (skill = "" \/ In skill (form_skills form) ->
      form' = form /\ selected' = selectedSkill)
  /\ (skill <> "" -> ~ In skill (form_skills form) ->
      form_skills form' = form_skills form ++ [skill] /\ selected' = "")
  /\ form_name form' = form_name form
  /\ form_email form' = form_email form
  /\ form_bio form' = form_bio form.
Proof.
  cbv zeta. unfold handleAddSkill.
  destruct (String.eqb_spec skill "") as [Hempty | Hfull]; simpl.
  - split; [auto |]. split; [auto |]. split; [intros Hne; contradiction |].
    repeat split.
  - destruct (includes skill (form_skills form)) eqn:Hinc; simpl.
    + apply includes_In in Hinc.
      split; [auto |]. split; [auto |]. split; [intros _ Hno; contradiction |].
      repeat split.
    + assert (Hno : ~ In skill (form_skills form)).
      { intros Hin. apply includes_In in Hin. congruence. }
      split; [| split; [| split; [| repeat split]]].
      * intros Hnd. apply NoDup_app; [exact Hnd | repeat constructor; intros [] |].
        intros s Hs [<- | []]. contradiction.
      * intros [He | Hin]; contradiction.
      * intros _ _. split; reflexivity.
Qed.

Lemma handleAddSkill_keeps_skills_distinct_witness :
  let form := mkProfileForm "Alice" "a@x.io" "" ["React"; "CSS"] in
  form_skills (fst (handleAddSkill form "Rust" "Rust")) = ["React"; "CSS"; "Rust"]
  /\ fst (handleAddSkill form "CSS" "CSS") = form
  /\ NoDup (form_skills (fst (handleAddSkill form "Rust" "Rust"))).
Proof.
  cbv zeta.
  pose proof (handleAddSkill_keeps_skills_distinct
                (mkProfileForm "Alice" "a@x.io" "" ["React"; "CSS"]) "Rust" "Rust") as Hnew.
  pose proof (handleAddSkill_keeps_skills_distinct
                (mkProfileForm "Alice" "a@x.io" "" ["React"; "CSS"]) "CSS" "CSS") as Hold.
  cbv zeta in Hnew, Hold.
  destruct Hnew as (Hnd & _ & Hadd & _). destruct Hold as (_ & Hsame & _).
  split; [| split].
  - apply Hadd; [discriminate |]. intros [H | [H | []]]; discriminate H.
  - apply Hsame. right. right. left. reflexivity.
  - apply Hnd. repeat constructor; simpl; intuition discriminate.
Defined.

(** X25. [handleRemoveSkill] takes every occurrence of the skill out of the
    skills and keeps every other skill, in the order they had: with the
    skill once in the list, what was before it is followed by what was after
    it.  Removing a skill the form does not have changes nothing; and
    removing a skill just added with [handleAddSkill] gives back the form as
    it was.  Name, email and bio are never touched. *)
Theorem handleRemoveSkill_undoes_add (form : ProfileForm) (skill : string) :
  form_skills (handleRemoveSkill form skill)
  = filter (fun s => negb (String.eqb s skill)) (form_skills form)
  /\ (forall before after,
         form_skills form = before ++ skill :: after ->
         ~ In skill before -> ~ In skill after ->
         form_skills (handleRemoveSkill form skill) = before ++ after)
  /\ ~ In skill (form_skills (handleRemoveSkill form skill))
  /\ (forall s, s <> skill ->
                (In s (form_skills (handleRemoveSkill form skill))
                 <-> In s (form_skills form)))
  /\ (NoDup (form_skills form) -> NoDup (form_skills (handleRemoveSkill form skill)))
  /\ (~ In skill (form_skills form) -> handleRemoveSkill form skill = form)
  /\ (forall selectedSkill,
         skill <> "" -> ~ In skill (form_skills form) ->
         handleRemoveSkill (fst (handleAddSkill form selectedSkill skill)) skill = form)
  /\ form_name (handleRemoveSkill form skill) = form_name form
  /\ form_email (handleRemoveSkill form skill) = form_email form
  /\ form_bio (handleRemoveSkill form skill) = form_bio form.
Proof.
  assert (Habsent : forall skills,
             ~ In skill skills ->
             filter (fun s => negb (String.eqb s skill)) skills = skills).
  { intros skills Hno. apply forallb_filter_id. apply forallb_forall.
    intros s Hs. apply negb_true_iff, String.eqb_neq. intros ->. contradiction. }
  split; [reflexivity |].
  split.
  { intros before after Hskills Hbefore Hafter. simpl. rewrite Hskills.
    rewrite filter_app. simpl. rewrite String.eqb_refl. simpl.
    rewrite (Habsent _ Hbefore), (Habsent _ Hafter). reflexivity. }
  split; [| split; [| split; [| split; [| split; [| repeat split]]]]].
  - simpl. intros Hin. apply filter_In in Hin. destruct Hin as [_ Hkeep].
    rewrite String.eqb_refl in Hkeep. discriminate Hkeep.
  - intros s Hne. simpl. rewrite filter_In, negb_true_iff, String.eqb_neq. tauto.
  - simpl. apply NoDup_filter.
  - intros Hno. unfold handleRemoveSkill. rewrite (Habsent _ Hno).
    apply with_skills_same.
  - intros selectedSkill Hne Hno. unfold handleAddSkill.
    apply String.eqb_neq in Hne. rewrite Hne. simpl.
    destruct (includes skill (form_skills form)) eqn:Hinc.
    + apply includes_In in Hinc. contradiction.
    + unfold handleRemoveSkill. simpl. rewrite filter_app. simpl.
      rewrite String.eqb_refl. simpl. rewrite app_nil_r, (Habsent _ Hno).
      destruct form; reflexivity.
Qed.

Lemma handleRemoveSkill_undoes_add_witness :
  let form := mkProfileForm "Alice" "a@x.io" "" ["React"; "CSS"] in
  handleRemoveSkill (fst (handleAddSkill form "" "Rust")) "Rust" = form
  /\ form_skills (handleRemoveSkill
                    (mkProfileForm "Alice" "a@x.io" "" ["React"; "CSS"; "Go"]) "CSS")
     = ["React"; "Go"].
Proof.
  cbv zeta.
  destruct (handleRemoveSkill_undoes_add
              (mkProfileForm "Alice" "a@x.io" "" ["React"; "CSS"]) "Rust")
    as (_ & _ & _ & _ & _ & _ & Hundo & _).
  split; [apply Hundo; [discriminate |]; intros [H | [H | []]]; discriminate H |].
  destruct (handleRemoveSkill_undoes_add
              (mkProfileForm "Alice" "a@x.io" "" ["React"; "CSS"; "Go"]) "CSS")
    as (_ & Horder & _).
  apply (Horder ["React"] ["Go"]); [reflexivity | |];
    intros [H | []]; discriminate H.
Defined.

(** X26. The select offers exactly the skills of the catalogue that the
    form does not have yet, in the order of the catalogue; so picking an
    offered skill always adds it, and once added it is offered no more. *)
Theorem offeredSkills_are_the_missing_ones
        (skillsList : list string) (form : ProfileForm) :
  (forall s, In s (offeredSkills skillsList form)
             <-> In s skillsList /\ ~ In s (form_skills form))
  /\ (forall s selectedSkill,
         In s (offeredSkills skillsList form) -> s <> "" ->
         let form' := fst (handleAddSkill form selectedSkill s) in
         form_skills form' = form_skills form ++ [s]
         /\ ~ In s (offeredSkills skillsList form')).
Proof.
  assert (Hoffered : forall f s, In s (offeredSkills skillsList f)
                                 <-> In s skillsList /\ ~ In s (form_skills f)).
  { intros f s. unfold offeredSkills. rewrite filter_In, negb_true_iff.
    split; intros [Hcat Hnot]; (split; [exact Hcat |]).
    - intros Hin. apply includes_In in Hin. congruence.
    - destruct (includes s (form_skills f)) eqn:Hinc; [| reflexivity].
      apply includes_In in Hinc. contradiction. }
  split; [apply Hoffered |].
  intros s selectedSkill Hin Hne form'.
  apply Hoffered in Hin. destruct Hin as [_ Hno].
  pose proof (handleAddSkill_new form selectedSkill s Hne Hno) as Hskills.
  subst form'. split; [exact Hskills |].
  intros Hagain. apply Hoffered in Hagain. destruct Hagain as [_ Hstill].
  apply Hstill. rewrite Hskills. apply in_or_app. right. left. reflexivity.
Qed.

Lemma offeredSkills_are_the_missing_ones_witness :
  let form := mkProfileForm "Alice" "a@x.io" "" ["React"; "CSS"] in
  form_skills (fst (handleAddSkill form "" "Rust")) = ["React"; "CSS"; "Rust"].
Proof.
  cbv zeta.
  destruct (offeredSkills_are_the_missing_ones
              ["React"; "Rust"; "Go"] (mkProfileForm "Alice" "a@x.io" "" ["React"; "CSS"]))
    as [_ Hpick].
  destruct (Hpick "Rust" "") as [Hskills _];
    [left; reflexivity | discriminate | exact Hskills].
Defined.

End Skills.

Section PageHandlers.

Variable decodeToken : string -> option UserInfo.

Lemma updateJob_local (w : World) (jobId : string) (jobData : JobData)
      (resp : Response JobType) :
  local (world (JobProvider.updateJob w jobId jobData resp)) = local w.
Proof. destruct resp as [e | m | j]; reflexivity. Qed.

Lemma deleteJob_local (w : World) (jobId : string) (resp : Response unit) :
  local (world (JobProvider.deleteJob w jobId resp)) = local w.
Proof. destruct resp as [e | m | u]; reflexivity. Qed.

Lemma refreshJobs_filtered (w0 : World) (r1 r2 : Response (list JobType)) :
  filteredJobs (store (world (JobProvider.refreshJobs w0 r1 r2)))
  = jobs (store (world (JobProvider.refreshJobs w0 r1 r2))).
Proof.
  unfold JobProvider.refreshJobs.
  destruct r1 as [e1 | m1 | js1]; simpl;
    destruct (currentUser w0) as [user |]; simpl; try reflexivity;
    destruct r2 as [e2 | m2 | js2]; reflexivity.
Qed.

(** X27. [handleUpdateJob] does nothing when no job is being edited.
    Otherwise it closes the editor and ends with the notification
    "Propuesta actualizada" whatever the server answered to the update, also
    after the failure notifications of an update that failed.  The refresh
    it runs after the update leaves the popular jobs as the first three of
    the job list and, when the cached snapshot has the comments of its jobs,
    every job of the list with a comment sequence, even if the update's
    answer had none. *)
Theorem handleUpdateJob_always_reports_success
        (page : ProfilePage.Page) (w : World) (jobData : JobData)
        (resp : Response JobType) (r1 r2 : Response (list JobType)) :
  let result := ProfilePage.handleUpdateJob page w jobData resp r1 r2 in
  let page' := fst (fst result) in
  let w' := snd (fst result) in
  let shown := snd result in
  (ProfilePage.editingJob page = None -> result = (page, w, []))
  /\ (forall job,
         ProfilePage.editingJob page = Some job ->
         ProfilePage.editingJob page' = None
         /\ ProfilePage.isSubmittingJob page' = false
         /\ (exists before,
                shown = before ++ [toast Default "Propuesta actualizada"
                                         "La propuesta ha sido actualizada correctamente"])
         /\ popularJobs (store w') = Js.slice0 3 (jobs (store w'))
         /\ (comments_present (jobService.cached_or_empty (local w)) ->
             comments_present (jobs (store w')))
         /\ (transport_failure resp = true -> 1 <= count is_failure_toast shown)).
Proof.
  cbv zeta. unfold ProfilePage.handleUpdateJob. split.
  - intros ->. reflexivity.
  - intros job ->. simpl.
    split; [reflexivity |]. split; [reflexivity |].
    split; [rewrite app_assoc; eexists; reflexivity |].
    split; [apply refreshJobs_popular |].
    split.
    + intros Hcache. apply refreshJobs_comments_present.
      rewrite updateJob_local. exact Hcache.
    + intros Hfail. unfold count. rewrite filter_app, length_app.
      destruct resp as [e | m | j]; try discriminate Hfail; simpl; lia.
Qed.

Lemma handleUpdateJob_always_reports_success_witness :
  let result := ProfilePage.handleUpdateJob
                  (ProfilePage.mkPage (Some Sample.A) false) Sample.world1
                  Sample.jobData1 (Success (Sample.bare "A"))
                  (Success [Sample.A]) (Success [Sample.A]) in
  ProfilePage.editingJob (fst (fst result)) = None
  /\ comments_present (jobs (store (snd (fst result)))).
Proof.
  cbv zeta.
  pose proof (handleUpdateJob_always_reports_success
                (ProfilePage.mkPage (Some Sample.A) false) Sample.world1
                Sample.jobData1 (Success (Sample.bare "A"))
                (Success [Sample.A]) (Success [Sample.A])) as H.
  cbv zeta in H. destruct H as [_ Hedit].
  destruct (Hedit Sample.A eq_refl) as (Hclosed & _ & _ & _ & Hcomments & _).
  split; [exact Hclosed |].
  apply Hcomments. repeat constructor. discriminate.
Defined.

(** X28. [handleDeleteJob], when the server confirms, refreshes: the popular
    jobs are again the first three of the job list and the filtered jobs are
    the job list, and the page ends with "Propuesta eliminada".  The job
    list is then what the refresh fetched: when its first fetch fails, it is
    the cached snapshot, in which the deleted job may still be.  When the
    server does not confirm, nothing is refreshed: one request, the world as
    before, and no success notification. *)
Theorem handleDeleteJob_refreshes_when_confirmed
        (w : World) (jobId : string) (r1 r2 : Response (list JobType)) :
  (let result := ProfilePage.handleDeleteJob w jobId (Success tt) r1 r2 in
   let s := store (fst result) in
   popularJobs s = Js.slice0 3 (jobs s)
   /\ filteredJobs s = jobs s
   /\ (exists before,
          snd result = before ++ [toast Default "Propuesta eliminada"
                                        "La propuesta ha sido eliminada correctamente"])
   /\ (transport_failure r1 = true -> jobs s = jobService.cached_or_empty (local w)))
  /\ (forall resp,
         transport_failure resp = true ->
         let result := ProfilePage.handleDeleteJob w jobId resp r1 r2 in
         fst result = w
         /\ count is_request (snd result) = 1
         /\ count is_success_toast (snd result) = 0).
Proof.
  split.
  - cbv zeta. unfold ProfilePage.handleDeleteJob. simpl.
    split; [apply refreshJobs_popular |].
    split; [apply refreshJobs_filtered |].
    split; [eexists (_ :: _ :: _ :: _); reflexivity |].
    intros Hfail. unfold JobProvider.refreshJobs.
    destruct r1 as [e1 | m1 | js1]; try discriminate Hfail; simpl;
      destruct (currentUser w); simpl; try reflexivity;
      destruct r2; reflexivity.
  - intros resp Hfail. cbv zeta. unfold ProfilePage.handleDeleteJob.
    destruct resp as [e | m | u]; try discriminate Hfail; simpl;
      destruct w; repeat split.
Qed.

(** The job [A] is cached, its deletion is confirmed, and the refresh that
    follows is made offline: [A] is back in the job list. *)
Lemma handleDeleteJob_refreshes_when_confirmed_witness :
  let w := mkWorld (store Sample.world1) (mkStorage None (Some [Sample.A]) false)
                   (Some Sample.alice) in
  jobs (store (fst (ProfilePage.handleDeleteJob w "A" (Success tt)
                                                Sample.offline Sample.offline)))
  = [Sample.A]
  /\ fst (ProfilePage.handleDeleteJob w "A" Sample.offline
                                      (Success []) (Success [])) = w.
Proof.
  cbv zeta.
  pose proof (handleDeleteJob_refreshes_when_confirmed
                (mkWorld (store Sample.world1) (mkStorage None (Some [Sample.A]) false)
                         (Some Sample.alice))
                "A" Sample.offline Sample.offline) as Hoff.
  pose proof (handleDeleteJob_refreshes_when_confirmed
                (mkWorld (store Sample.world1) (mkStorage None (Some [Sample.A]) false)
                         (Some Sample.alice))
                "A" (Success []) (Success [])) as Hon.
  cbv zeta in Hoff, Hon.
  destruct Hoff as [(_ & _ & _ & Hcached) _]. destruct Hon as [_ Hrefused].
  split; [exact (Hcached eq_refl) |].
  exact (proj1 (Hrefused Sample.offline eq_refl)).
Defined.

End PageHandlers.

(** * The chat sheet *)

Section ChatSheet.

Import ChatMobileSheet.

Variable toDateString : string -> string.
Variable currentUser : option UserType.
Variable handlers : bool.

Lemma items_from_separators (previous : MessageType) (messages : list MessageType) :
  count_occ Bool.bool_dec
            (map is_separator
                 (items_from toDateString currentUser handlers (Some previous) messages))
            true
  = day_changes toDateString (previous :: messages).
Proof.
  revert previous. induction messages as [| m rest IH]; intros previous; [reflexivity |].
  change (day_changes toDateString (previous :: m :: rest))
    with ((if String.eqb (toDateString (message_timestamp m))
                         (toDateString (message_timestamp previous))
           then 0 else 1) + day_changes toDateString (m :: rest)).
  rewrite <- IH. simpl.
  destruct (String.eqb (toDateString (message_timestamp m))
                       (toDateString (message_timestamp previous))); simpl;
    unfold message_item; destruct (isSystemMessage m); reflexivity.
Qed.

Lemma items_from_messages (previous : option MessageType) (messages : list MessageType) :
  List.length (filter (fun i => negb (is_separator i))
                      (items_from toDateString currentUser handlers previous messages))
  = List.length messages.
Proof.
  revert previous. induction messages as [| m rest IH]; intros previous; [reflexivity |].
  simpl. rewrite filter_app, length_app.
  assert (Hsep : List.length
                   (filter (fun i => negb (is_separator i))
                           (if showDateSeparator toDateString previous m
                            then [DateSeparator (message_timestamp m)] else [])) = 0).
  { destruct (showDateSeparator toDateString previous m); reflexivity. }
  rewrite Hsep. simpl.
  unfold message_item. destruct (isSystemMessage m); simpl; rewrite IH; reflexivity.
Qed.

Lemma nth_error_after (pre : list MessageType) (m : MessageType)
      (rest : list MessageType) :
  nth_error (pre ++ m :: rest) (List.length pre) = Some m.
Proof. induction pre as [| p pre IH]; simpl; auto. Qed.

Lemma nth_error_second (pre : list MessageType) (m r : MessageType)
      (rest : list MessageType) :
  nth_error (pre ++ m :: r :: rest) (S (List.length pre)) = Some r.
Proof. induction pre as [| p pre IH]; simpl; auto. Qed.

Lemma items_from_indexed (pre : list MessageType) (m : MessageType)
      (rest : list MessageType) :
  items_from toDateString currentUser handlers (Some m) rest
  = flat_map (items_at toDateString currentUser handlers (pre ++ m :: rest))
             (seq (S (List.length pre)) (List.length rest)).
Proof.
  revert pre m. induction rest as [| r rest IH]; intros pre m; [reflexivity |].
  cbn [List.length seq flat_map items_from].
  specialize (IH (pre ++ [m]) r).
  rewrite <- app_assoc in IH. simpl app in IH.
  rewrite length_app in IH. simpl List.length in IH. rewrite Nat.add_1_r in IH.
  rewrite <- IH.
  unfold items_at at 1. rewrite nth_error_second.
  cbn [separator_at]. rewrite nth_error_second, nth_error_after.
  cbn [showDateSeparator]. rewrite <- app_assoc. reflexivity.
Qed.

(** X29. What the sheet shows for a non-empty conversation, index by index
    as [messages.map] builds it: for each message, in order, a date
    separator if the message is the first or its day is not the day of the
    message just before it, and then the message itself.  So the separators
    stand immediately before the first message of each run of one day: one
    before the first message, and one more at each place where the day
    changes from a message to the next, and a conversation of a single day
    has exactly one.  An empty conversation shows the placeholder only. *)
Theorem items_separate_days (first : MessageType) (rest : list MessageType) :
  let messages := first :: rest in
  let shown := items toDateString currentUser handlers messages in
  shown = flat_map (items_at toDateString currentUser handlers messages)
                   (seq 0 (List.length messages))
  /\ (forall before m1 m2 after,
         messages = before ++ m1 :: m2 :: after ->
         shown = items toDateString currentUser handlers (before ++ [m1])
                 ++ (if String.eqb (toDateString (message_timestamp m2))
                                   (toDateString (message_timestamp m1))
                     then [] else [DateSeparator (message_timestamp m2)])
                 ++ message_item currentUser handlers m2
                 :: items_from toDateString currentUser handlers (Some m2) after)
  /\ (exists others, shown = DateSeparator (message_timestamp first) :: others)
  /\ count_occ Bool.bool_dec (map is_separator shown) true
     = 1 + day_changes toDateString messages
  /\ List.length (filter (fun i => negb (is_separator i)) shown)
     = List.length messages
  /\ items toDateString currentUser handlers [] = [NoMessages].
Proof.
  cbv zeta. split; [| split; [| split; [| split; [| split]]]].
  - cbn [items List.length seq flat_map items_from].
    rewrite (items_from_indexed [] first rest). reflexivity.
  - intros before m1 m2 after Hsplit.
    assert (Hfrom : forall previous pre tail,
               items_from toDateString currentUser handlers previous (pre ++ m1 :: tail)
               = items_from toDateString currentUser handlers previous (pre ++ [m1])
                 ++ items_from toDateString currentUser handlers (Some m1) tail).
    { intros previous pre tail. revert previous.
      induction pre as [| p pre IH]; intros previous; simpl.
      - rewrite <- app_assoc. reflexivity.
      - rewrite IH, <- !app_assoc. reflexivity. }
    assert (Hitems : forall ms, ms <> [] ->
                                items toDateString currentUser handlers ms
                                = items_from toDateString currentUser handlers None ms).
    { intros [| m ms] Hne; [contradiction | reflexivity]. }
    rewrite Hsplit.
    rewrite !Hitems by (destruct before; discriminate).
    rewrite Hfrom. f_equal. cbn [items_from showDateSeparator].
    destruct (String.eqb (toDateString (message_timestamp m2))
                         (toDateString (message_timestamp m1))); reflexivity.
  - simpl. eexists. reflexivity.
  - change (items toDateString currentUser handlers (first :: rest))
      with (DateSeparator (message_timestamp first)
              :: message_item currentUser handlers first
              :: items_from toDateString currentUser handlers (Some first) rest).
    simpl map. rewrite count_occ_cons_eq by reflexivity. f_equal.
    rewrite <- items_from_separators.
    unfold message_item. destruct (isSystemMessage first); reflexivity.
  - apply (items_from_messages None (first :: rest)).
  - reflexivity.
Qed.

Lemma items_from_menus (previous : option MessageType) (messages : list MessageType) :
  forall item, In item (items_from toDateString currentUser handlers previous messages) ->
               has_menu item = true ->
               exists message user,
                 item = Bubble message true true
                 /\ In message messages
                 /\ currentUser = Some user
                 /\ message_senderId message = user_id user
                 /\ message_deleted message = false
                 /\ message_senderId message <> "system"
                 /\ handlers = true.
Proof.
  revert previous. induction messages as [| m rest IH]; intros previous item Hin Hmenu;
    [destruct Hin |].
  simpl in Hin. apply in_app_or in Hin. destruct Hin as [Hsep | [Hitem | Hrest]].
  - destruct (showDateSeparator toDateString previous m); simpl in Hsep;
      [destruct Hsep as [<- | []]; discriminate Hmenu | destruct Hsep].
  - subst item. unfold message_item in *.
    destruct (isSystemMessage m) eqn:Hsys; [discriminate Hmenu |].
    simpl in Hmenu. apply andb_true_iff in Hmenu. destruct Hmenu as [Hmenu Hhandlers].
    apply andb_true_iff in Hmenu. destruct Hmenu as [Hmine Hdeleted].
    unfold isCurrentUser in *. destruct currentUser as [user |]; [| discriminate Hmine].
    exists m, user. rewrite Hmine, Hdeleted, Hhandlers.
    apply negb_true_iff in Hdeleted. apply String.eqb_eq in Hmine.
    apply String.eqb_neq in Hsys. simpl. auto 10.
  - destruct (IH (Some m) item Hrest Hmenu) as (message & user & H).
    exists message, user. simpl. tauto.
Qed.

(** X30. The menu to edit or delete is shown only on a message the current
    user sent, that is not deleted and not a system message, and only when
    both handlers were given; system messages are shown as notes with their
    content. *)
Theorem menu_only_on_own_messages (messages : list MessageType) :
  (forall item,
      In item (items toDateString currentUser handlers messages) ->
      has_menu item = true ->
      exists message user,
        item = Bubble message true true
        /\ In message messages
        /\ currentUser = Some user
        /\ message_senderId message = user_id user
        /\ message_deleted message = false
        /\ message_senderId message <> "system"
        /\ handlers = true)
  /\ (forall message,
         In message messages -> message_senderId message = "system" ->
         In (SystemNote (message_content message))
            (items toDateString currentUser handlers messages)).
Proof.
  split.
  - intros item Hin Hmenu. destruct messages as [| first rest].
    + destruct Hin as [<- | []]. discriminate Hmenu.
    + apply (items_from_menus None (first :: rest)); assumption.
  - intros message Hin Hsys. destruct messages as [| first rest]; [destruct Hin |].
    unfold items. generalize (@None MessageType) as previous.
    revert Hin. generalize (first :: rest) as ms. clear first rest.
    induction ms as [| m ms' IH]; intros Hin previous; [destruct Hin |].
    simpl. apply in_or_app. right. destruct Hin as [-> | Hin].
    + left. unfold message_item, isSystemMessage. rewrite Hsys. reflexivity.
    + right. apply IH. exact Hin.
Qed.

End ChatSheet.

Lemma menu_only_on_own_messages_witness :
  let note := ChatMobileSheet.mkMessage "m1" "system" "Alice joined" "2025-04-01T10:00" false in
  In (ChatMobileSheet.SystemNote "Alice joined")
     (ChatMobileSheet.items (fun t => substring 0 10 t) (Some Sample.alice) true [note]).
Proof.
  cbv zeta.
  destruct (menu_only_on_own_messages
              (fun t => substring 0 10 t) (Some Sample.alice) true
              [ChatMobileSheet.mkMessage "m1" "system" "Alice joined" "2025-04-01T10:00" false])
    as [_ Hnote].
  apply (Hnote (ChatMobileSheet.mkMessage "m1" "system" "Alice joined"
                                          "2025-04-01T10:00" false));
    [left |]; reflexivity.
Defined.

(** An update of a job the provider does not hold. *)
Lemma updateJob_success_patches_witness :
  jobs (store (world (JobProvider.updateJob Sample.world1 "Z" Sample.jobData1
                                            (Success (Sample.job "Z")))))
  = jobs (store Sample.world1).
Proof.
  pose proof (updateJob_success_patches
                Sample.world1 "Z" Sample.jobData1 (Sample.job "Z")) as H.
  cbv zeta in H. destruct H as ((_ & Hunknown) & _).
  apply Hunknown. intros (job & Hin & Hid). vm_compute in Hin.
  destruct Hin as [<- | []]. discriminate Hid.
Defined.

(** Three messages, the third on the next day: the second separator stands
    between the second and the third message. *)
Lemma items_separate_days_witness :
  let day := fun t : string => substring 0 10 t in
  let m1 := ChatMobileSheet.mkMessage "m1" "u1" "hola" "2025-04-01T10:00" false in
  let m2 := ChatMobileSheet.mkMessage "m2" "u2" "que tal" "2025-04-01T10:05" false in
  let m3 := ChatMobileSheet.mkMessage "m3" "u1" "bien" "2025-04-02T09:00" false in
  ChatMobileSheet.items day (Some Sample.alice) true [m1; m2; m3]
  = [ChatMobileSheet.DateSeparator "2025-04-01T10:00";
     ChatMobileSheet.Bubble m1 true true;
     ChatMobileSheet.Bubble m2 false false;
     ChatMobileSheet.DateSeparator "2025-04-02T09:00";
     ChatMobileSheet.Bubble m3 true true].
Proof.
  cbv zeta.
  destruct (items_separate_days
              (fun t : string => substring 0 10 t) (Some Sample.alice) true
              (ChatMobileSheet.mkMessage "m1" "u1" "hola" "2025-04-01T10:00" false)
              [ChatMobileSheet.mkMessage "m2" "u2" "que tal" "2025-04-01T10:05" false;
               ChatMobileSheet.mkMessage "m3" "u1" "bien" "2025-04-02T09:00" false])
    as (_ & Hsplit & _).
  rewrite (Hsplit
             [ChatMobileSheet.mkMessage "m1" "u1" "hola" "2025-04-01T10:00" false]
             (ChatMobileSheet.mkMessage "m2" "u2" "que tal" "2025-04-01T10:05" false)
             (ChatMobileSheet.mkMessage "m3" "u1" "bien" "2025-04-02T09:00" false)
             [] eq_refl).
  reflexivity.
Defined.
